(** * docledger: the StudentDoc chaincode

    A shallow embedding of [docledger.go], the smart contract that keeps one
    [StudentDoc] record per document key in the ledger of a Hyperledger
    Fabric peer, together with the properties its specification states.

    Go strings and byte slices are sequences of bytes: both are [string]
    here, one [ascii] per byte.  The world state is a finite map from keys
    to the stored bytes.  A handler is a computation in a state monad over
    the world state that returns the [Response] sent back to the caller. *)

From Stdlib Require Import Ascii String NArith ZArith Lia Bool.
From stdpp Require Import gmap strings list sorting.

Local Open Scope string_scope.

(** ** Bytes *)

(** The double quote, written by code because a literal cannot hold it. *)
Definition dq : ascii := "034"%char.
Definition DQ : string := String dq EmptyString.

Definition byte (c : ascii) : N := N_of_ascii c.

(** [s[n:]] *)
Fixpoint skip (n : nat) (s : string) : string :=
  match n, s with
  | S k, String _ t => skip k t
  | _, _ => s
  end.

(** [s[:n]] *)
Fixpoint prefix (n : nat) (s : string) : string :=
  match n, s with
  | S k, String c t => String c (prefix k t)
  | _, _ => EmptyString
  end.

(** Appending, as [simpl] does not unfold it. *)
Lemma app_nil_l (s : string) : "" +:+ s = s.
Proof. reflexivity. Qed.

Lemma app_cons (c : ascii) (s t : string) :
  String c s +:+ t = String c (s +:+ t).
Proof. reflexivity. Qed.

Lemma app_nil_r (s : string) : s +:+ "" = s.
Proof. induction s as [|c s IH]; [reflexivity|]. rewrite app_cons, IH. reflexivity. Qed.

Lemma app_assoc (s t u : string) : (s +:+ t) +:+ u = s +:+ (t +:+ u).
Proof.
  induction s as [|c s IH]; [reflexivity|]. rewrite !app_cons, IH. reflexivity.
Qed.

Lemma length_app (s t : string) :
  String.length (s +:+ t) = String.length s + String.length t.
Proof.
  induction s as [|c s IH]; [reflexivity|]. rewrite app_cons. simpl.
  rewrite IH. reflexivity.
Qed.

(** ** unicode/utf8 *)

Module utf8.

Definition RuneError : N := 0xFFFD%N.
Definition RuneSelf : N := 0x80%N.
Definition MaxRune : N := 0x10FFFF%N.

(** The table [first] with [acceptRanges]: for a leading byte, the length of
    the sequence it starts and the range its second byte must lie in.
    [None] is the entry of a byte that starts no sequence of two or more
    bytes. *)
Definition first (s0 : N) : option (nat * N * N) :=
  if ((0xC2 <=? s0) && (s0 <=? 0xDF))%N then Some (2%nat, 0x80%N, 0xBF%N)
  else if (s0 =? 0xE0)%N then Some (3%nat, 0xA0%N, 0xBF%N)
  else if (s0 =? 0xED)%N then Some (3%nat, 0x80%N, 0x9F%N)
  else if ((0xE1 <=? s0) && (s0 <=? 0xEF))%N then Some (3%nat, 0x80%N, 0xBF%N)
  else if (s0 =? 0xF0)%N then Some (4%nat, 0x90%N, 0xBF%N)
  else if ((0xF1 <=? s0) && (s0 <=? 0xF3))%N then Some (4%nat, 0x80%N, 0xBF%N)
  else if (s0 =? 0xF4)%N then Some (4%nat, 0x80%N, 0x8F%N)
  else None.

(** Continuation byte: [locb <= c <= hicb]. *)
Definition cb (c : N) : bool := ((0x80 <=? c) && (c <=? 0xBF))%N.

(** [utf8.DecodeRuneInString]: the first rune of [s] and its width in bytes;
    [(RuneError, 1)] for an ill-formed sequence, [(RuneError, 0)] for the
    empty string.  The masks [s0 & mask2], [s1 & maskx], ... are written as
    remainders and the shifts as products. *)
Definition DecodeRune (s : string) : N * nat :=
  match s with
  | EmptyString => (RuneError, 0)
  | String c0 t0 =>
    let s0 := byte c0 in
    match first s0 with
    | None => (if (s0 <? RuneSelf)%N then s0 else RuneError, 1)
    | Some (sz, lo, hi) =>
      match t0 with
      | EmptyString => (RuneError, 1)
      | String c1 t1 =>
        let s1 := byte c1 in
        if negb ((lo <=? s1) && (s1 <=? hi))%N then (RuneError, 1)
        else if (sz <=? 2)%nat then (((s0 mod 32) * 64 + s1 mod 64)%N, 2)
        else
          match t1 with
          | EmptyString => (RuneError, 1)
          | String c2 t2 =>
            let s2 := byte c2 in
            if negb (cb s2) then (RuneError, 1)
            else if (sz <=? 3)%nat
            then (((s0 mod 16) * 4096 + (s1 mod 64) * 64 + s2 mod 64)%N, 3)
            else
              match t2 with
              | EmptyString => (RuneError, 1)
              | String c3 _ =>
                let s3 := byte c3 in
                if negb (cb s3) then (RuneError, 1)
                else (((s0 mod 8) * 262144 + (s1 mod 64) * 4096
                       + (s2 mod 64) * 64 + s3 mod 64)%N, 4)
              end
          end
      end
    end
  end.

Definition b (n : N) : string := String (ascii_of_N n) EmptyString.

(** [utf8.AppendRune] onto the empty slice: the UTF-8 encoding of [r], that
    of [RuneError] for a surrogate or a value beyond [MaxRune]. *)
Definition EncodeRune (r : N) : string :=
  if (r <=? 0x7F)%N then b r
  else if (r <=? 0x7FF)%N then b (0xC0 + r / 64) +:+ b (0x80 + r mod 64)
  else if ((MaxRune <? r) || ((0xD800 <=? r) && (r <=? 0xDFFF)))%N
  then b 0xEF +:+ b 0xBF +:+ b 0xBD
  else if (r <=? 0xFFFF)%N
  then b (0xE0 + r / 4096) +:+ b (0x80 + (r / 64) mod 64) +:+ b (0x80 + r mod 64)
  else b (0xF0 + r / 262144) +:+ b (0x80 + (r / 4096) mod 64)
       +:+ b (0x80 + (r / 64) mod 64) +:+ b (0x80 + r mod 64).

(** [utf8.ValidString], a loop over the runes of [s]; [n] bounds the number
    of iterations and [String.length s] always suffices. *)
Fixpoint valid_loop (n : nat) (s : string) : bool :=
  match n with
  | O => match s with EmptyString => true | _ => false end
  | S n' =>
    match s with
    | EmptyString => true
    | String c0 t0 =>
      if (byte c0 <? RuneSelf)%N then valid_loop n' t0
      else
        let '(r, size) := DecodeRune s in
        if (size =? 1)%nat then false else valid_loop n' (skip size s)
    end
  end.

Definition ValidString (s : string) : bool := valid_loop (String.length s) s.

End utf8.

(** ** The record *)

(** [type StudentDoc struct], with the JSON names [docStatus] and [owner]. *)
Record StudentDoc := mkStudentDoc { DocStatus : string; Owner : string }.

(** [StudentDoc{}] *)
Definition zeroStudentDoc : StudentDoc := mkStudentDoc "" "".

(** ** encoding/json, as far as [StudentDoc] needs it *)

Module json.

Definition hex (n : N) : string :=
  String.substring (N.to_nat n) 1 "0123456789abcdef".

(** [htmlSafeSet]: the ASCII bytes [Marshal] copies into a string literal as
    they are, all from the space on but the double quote, the backslash and
    the three HTML characters. *)
Definition htmlSafeSet (c : N) : bool :=
  ((0x20 <=? c) && (c <? 0x80))%N
  && negb ((c =? 0x22) || (c =? 0x26) || (c =? 0x3C) || (c =? 0x3E)
           || (c =? 0x5C))%N.

(** The [switch] of [encodeState.string] for an ASCII byte outside
    [htmlSafeSet]. *)
Definition escape (c : ascii) : string :=
  let n := byte c in
  if ((n =? 0x5C) || (n =? 0x22))%N then String "\" (String c "")
  else if (n =? 0x0A)%N then "\n"
  else if (n =? 0x0D)%N then "\r"
  else if (n =? 0x09)%N then "\t"
  else "\u00" +:+ hex (n / 16) +:+ hex (n mod 16).

(** The loop of [encodeState.string] over [s[i:]], with HTML escaping on as
    [Marshal] has it.  The bytes between [start] and [i], which the code
    copies in one piece, are copied here as they are passed. *)
Fixpoint string_loop (n : nat) (s : string) : string :=
  match n with
  | O => ""
  | S n' =>
    match s with
    | EmptyString => ""
    | String c t =>
      if (byte c <? utf8.RuneSelf)%N then
        (if htmlSafeSet (byte c) then String c "" else escape c)
        +:+ string_loop n' t
      else
        let '(r, size) := utf8.DecodeRune s in
        if ((r =? utf8.RuneError)%N && (size =? 1)%nat) then
          "\ufffd" +:+ string_loop n' (skip size s)
        else if ((r =? 0x2028) || (r =? 0x2029))%N then
          "\u202" +:+ hex (r mod 16) +:+ string_loop n' (skip size s)
        else prefix size s +:+ string_loop n' (skip size s)
    end
  end.

(** [encodeState.string]: the JSON string literal for [s]. *)
Definition quote (s : string) : string :=
  DQ +:+ string_loop (String.length s) s +:+ DQ.

(** [json.Marshal] of a [StudentDoc]; it cannot fail on this type. *)
Definition Marshal (d : StudentDoc) : string :=
  "{" +:+ DQ +:+ "docStatus" +:+ DQ +:+ ":" +:+ quote (DocStatus d)
  +:+ "," +:+ DQ +:+ "owner" +:+ DQ +:+ ":" +:+ quote (Owner d) +:+ "}".

(** *** Decoding *)

(** A JSON value as the scanner delimits it.  Numbers and the elements of
    arrays are only checked, never stored in a [StudentDoc]. *)
#[local] Unset Elimination Schemes.
Inductive value :=
| Null
| Bool (x : bool)
| Number
| Str (s : string)
| Array (l : list value)
| Object (m : list (string * value)).
#[local] Set Elimination Schemes.

(** What [Unmarshal] can report: input that is not JSON, and a JSON value
    of the wrong kind for the Go value it is decoded into. *)
Inductive error :=
| SyntaxError
| UnmarshalTypeError (Value : string).

(** [isSpace] *)
Definition isSpace (c : ascii) : bool :=
  let n := byte c in ((n =? 0x20) || (n =? 0x09) || (n =? 0x0D) || (n =? 0x0A))%N.

Fixpoint skip_ws (s : string) : string :=
  match s with
  | String c t => if isSpace c then skip_ws t else s
  | EmptyString => s
  end.

Definition isDigit (c : ascii) : bool :=
  let n := byte c in ((0x30 <=? n) && (n <=? 0x39))%N.

Definition hexval (c : ascii) : option N :=
  let n := byte c in
  if ((0x30 <=? n) && (n <=? 0x39))%N then Some (n - 0x30)%N
  else if ((0x61 <=? n) && (n <=? 0x66))%N then Some (n - 0x61 + 10)%N
  else if ((0x41 <=? n) && (n <=? 0x46))%N then Some (n - 0x41 + 10)%N
  else None.

(** [getu4]: the value of the four hexadecimal digits of an escape [\uXXXX]
    at the head of [s]. *)
Definition getu4 (s : string) : option N :=
  match s with
  | String "\" (String "u" (String c1 (String c2 (String c3 (String c4 _))))) =>
    match hexval c1, hexval c2, hexval c3, hexval c4 with
    | Some h1, Some h2, Some h3, Some h4 =>
      Some (((h1 * 16 + h2) * 16 + h3) * 16 + h4)%N
    | _, _, _, _ => None
    end
  | _ => None
  end.

(** [utf16.IsSurrogate] *)
Definition IsSurrogate (r : N) : bool := ((0xD800 <=? r) && (r <? 0xE000))%N.

(** [utf16.DecodeRune]: the code point of a surrogate pair, [RuneError] for
    anything but a high surrogate followed by a low one. *)
Definition utf16_DecodeRune (r1 r2 : N) : N :=
  if ((0xD800 <=? r1) && (r1 <? 0xDC00) && (0xDC00 <=? r2) && (r2 <? 0xE000))%N
  then ((r1 - 0xD800) * 1024 + (r2 - 0xDC00) + 0x10000)%N
  else utf8.RuneError.

(** The character a one-letter escape stands for. *)
Definition unescape (e : ascii) : option ascii :=
  let n := byte e in
  if ((n =? 0x22) || (n =? 0x5C) || (n =? 0x2F))%N then Some e
  else if (n =? 0x62)%N then Some "008"%char
  else if (n =? 0x66)%N then Some "012"%char
  else if (n =? 0x6E)%N then Some "010"%char
  else if (n =? 0x72)%N then Some "013"%char
  else if (n =? 0x74)%N then Some "009"%char
  else None.

Definition emit (pre : string) (r : option (string * string)) :
  option (string * string) :=
  match r with
  | Some (out, rest) => Some (pre +:+ out, rest)
  | None => None
  end.

(** A string literal from just after its opening quote: what the scanner
    accepts and [unquote] then makes of it, in one pass.  The result is the
    decoded text and the input after the closing quote; [None] where the
    scanner rejects the literal.  [n] bounds the iterations. *)
Fixpoint unquote_loop (n : nat) (s : string) : option (string * string) :=
  match n with
  | O => None
  | S n' =>
    match s with
    | EmptyString => None
    | String c t =>
      let v := byte c in
      if (v =? 0x22)%N then Some ("", t)
      else if (v =? 0x5C)%N then
        match t with
        | EmptyString => None
        | String e t' =>
          match unescape e with
          | Some ch => emit (String ch "") (unquote_loop n' t')
          | None =>
            if (byte e =? 0x75)%N then
              match getu4 s with
              | None => None
              | Some rr =>
                let rest := skip 6 s in
                if IsSurrogate rr then
                  match getu4 rest with
                  | Some rr1 =>
                    let dec := utf16_DecodeRune rr rr1 in
                    if (dec =? utf8.RuneError)%N
                    then emit (utf8.EncodeRune utf8.RuneError) (unquote_loop n' rest)
                    else emit (utf8.EncodeRune dec) (unquote_loop n' (skip 6 rest))
                  | None =>
                    emit (utf8.EncodeRune utf8.RuneError) (unquote_loop n' rest)
                  end
                else emit (utf8.EncodeRune rr) (unquote_loop n' rest)
              end
            else None
          end
        end
      else if (v <? 0x20)%N then None
      else if (v <? utf8.RuneSelf)%N then emit (String c "") (unquote_loop n' t)
      else
        let '(rr, size) := utf8.DecodeRune s in
        emit (utf8.EncodeRune rr) (unquote_loop n' (skip size s))
    end
  end.

(** A string literal from just after its opening quote. *)
Definition unquote (s : string) : option (string * string) :=
  unquote_loop (String.length s) s.

Fixpoint digits (s : string) : string :=
  match s with
  | String c t => if isDigit c then digits t else s
  | EmptyString => s
  end.

(** The exponent part of a number, if any; the input after it. *)
Definition exponent (s : string) : option string :=
  match s with
  | String c t =>
    if ((byte c =? 0x65) || (byte c =? 0x45))%N then
      let t' := match t with
                | String g u => if ((byte g =? 0x2B) || (byte g =? 0x2D))%N then u else t
                | EmptyString => t
                end in
      match t' with
      | String d u => if isDigit d then Some (digits u) else None
      | EmptyString => None
      end
    else Some s
  | EmptyString => Some s
  end.

(** The fraction and exponent parts of a number, if any. *)
Definition fraction (s : string) : option string :=
  match s with
  | String c t =>
    if (byte c =? 0x2E)%N then
      match t with
      | String d u => if isDigit d then exponent (digits u) else None
      | EmptyString => None
      end
    else exponent s
  | EmptyString => Some s
  end.

(** A number literal; the input after it. *)
Definition number (s : string) : option string :=
  let s1 := match s with
            | String c t => if (byte c =? 0x2D)%N then t else s
            | EmptyString => s
            end in
  match s1 with
  | String c t =>
    if (byte c =? 0x30)%N then fraction t
    else if isDigit c then fraction (digits t)
    else None
  | EmptyString => None
  end.

(** [s] with the leading [lit] removed. *)
Fixpoint literal (lit s : string) : option string :=
  match lit, s with
  | EmptyString, _ => Some s
  | String a l', String c t => if Ascii.eqb a c then literal l' t else None
  | String _ _, EmptyString => None
  end.

(** The scanner and the decoder's walk over the input, as one recursive
    descent: [parse_value] reads the value at the head of [s] (after white
    space), [parse_members] the members of an object from the opening quote
    of a key to the closing brace, [parse_elements] the elements of an array
    up to the closing bracket.  [n] bounds the depth of the recursion. *)
Fixpoint parse_value (n : nat) (s : string) : option (value * string) :=
  match n with
  | O => None
  | S n' =>
    match skip_ws s with
    | EmptyString => None
    | String c t =>
      let v := byte c in
      if (v =? 0x7B)%N then
        match skip_ws t with
        | String c' t' =>
          if (byte c' =? 0x7D)%N then Some (Object [], t')
          else match parse_members n' (skip_ws t) with
               | Some (m, r) => Some (Object m, r)
               | None => None
               end
        | EmptyString => None
        end
      else if (v =? 0x5B)%N then
        match skip_ws t with
        | String c' t' =>
          if (byte c' =? 0x5D)%N then Some (Array [], t')
          else match parse_elements n' t with
               | Some (l, r) => Some (Array l, r)
               | None => None
               end
        | EmptyString => None
        end
      else if (v =? 0x22)%N then
        match unquote t with
        | Some (x, r) => Some (Str x, r)
        | None => None
        end
      else if (v =? 0x74)%N then
        match literal "rue" t with Some r => Some (Bool true, r) | None => None end
      else if (v =? 0x66)%N then
        match literal "alse" t with Some r => Some (Bool false, r) | None => None end
      else if (v =? 0x6E)%N then
        match literal "ull" t with Some r => Some (Null, r) | None => None end
      else
        match number (String c t) with
        | Some r => Some (Number, r)
        | None => None
        end
    end
  end
with parse_members (n : nat) (s : string) : option (list (string * value) * string) :=
  match n with
  | O => None
  | S n' =>
    match s with
    | String c t =>
      if (byte c =? 0x22)%N then
        match unquote t with
        | Some (key, r) =>
          match skip_ws r with
          | String c1 r1 =>
            if (byte c1 =? 0x3A)%N then
              match parse_value n' r1 with
              | Some (v, r2) =>
                match skip_ws r2 with
                | String c3 r3 =>
                  if (byte c3 =? 0x2C)%N then
                    match parse_members n' (skip_ws r3) with
                    | Some (m, r4) => Some ((key, v) :: m, r4)
                    | None => None
                    end
                  else if (byte c3 =? 0x7D)%N then Some ([(key, v)], r3)
                  else None
                | EmptyString => None
                end
              | None => None
              end
            else None
          | EmptyString => None
          end
        | None => None
        end
      else None
    | EmptyString => None
    end
  end
with parse_elements (n : nat) (s : string) : option (list value * string) :=
  match n with
  | O => None
  | S n' =>
    match parse_value n' s with
    | Some (v, r) =>
      match skip_ws r with
      | String c1 r1 =>
        if (byte c1 =? 0x2C)%N then
          match parse_elements n' r1 with
          | Some (l, r2) => Some (v :: l, r2)
          | None => None
          end
        else if (byte c1 =? 0x5D)%N then Some ([v], r1)
        else None
      | EmptyString => None
      end
    | None => None
    end
  end.

(** [checkValid] and the walk of [decodeState]: the one JSON value [data]
    consists of, [None] where the scanner reports a syntax error. *)
Definition parse (data : string) : option value :=
  match parse_value (S (String.length data)) data with
  | Some (j, rest) =>
    match skip_ws rest with
    | EmptyString => Some j
    | String _ _ => None
    end
  | None => None
  end.

(** *** Fields *)

Inductive field := fDocStatus | fOwner.

Definition caseMask (x : N) : N := N.land x 0xDF.

(** [simpleLetterEqualFold], the folding of a name made of letters other
    than K and S. *)
Fixpoint simpleLetterEqualFold (s t : string) : bool :=
  match s, t with
  | EmptyString, EmptyString => true
  | String x s', String y t' =>
    (caseMask (byte x) =? caseMask (byte y))%N && simpleLetterEqualFold s' t'
  | _, _ => false
  end.

(** [equalFoldRight], the folding of an ASCII name with a K or an S in it:
    the key may also spell these with the Kelvin sign and the long s. *)
Fixpoint equalFoldRight (s t : string) : bool :=
  match s with
  | EmptyString => match t with EmptyString => true | String _ _ => false end
  | String x s' =>
    match t with
    | EmptyString => false
    | String y t' =>
      let sb := byte x in
      let tb := byte y in
      if (tb <? utf8.RuneSelf)%N then
        if (sb =? tb)%N then equalFoldRight s' t'
        else
          let sbUpper := caseMask sb in
          if ((0x41 <=? sbUpper) && (sbUpper <=? 0x5A))%N
          then (sbUpper =? caseMask tb)%N && equalFoldRight s' t'
          else false
      else
        let '(tr, size) := utf8.DecodeRune t in
        if ((sb =? 0x73) || (sb =? 0x53))%N
        then (tr =? 0x17F)%N && equalFoldRight s' (skip size t)
        else if ((sb =? 0x6B) || (sb =? 0x4B))%N
        then (tr =? 0x212A)%N && equalFoldRight s' (skip size t)
        else false
    end
  end.

(** [cachedTypeFields] of [StudentDoc]: name, folding function, field. *)
Definition fields : list (string * (string -> string -> bool) * field) :=
  [ ("docStatus", equalFoldRight, fDocStatus);
    ("owner", simpleLetterEqualFold, fOwner) ].

(** The loop of [decodeState.object] that picks the field for a key: the
    field whose name is the key, or else the first one whose name folds to
    it. *)
Fixpoint find_field (fs : list (string * (string -> string -> bool) * field))
    (key : string) (f : option field) : option field :=
  match fs with
  | [] => f
  | (name, equalFold, fld) :: fs' =>
    if String.eqb name key then Some fld
    else find_field fs' key
           (match f with
            | None => if equalFold name key then Some fld else None
            | Some _ => f
            end)
  end.

Definition store (f : field) (x : string) (d : StudentDoc) : StudentDoc :=
  match f with
  | fDocStatus => mkStudentDoc x (Owner d)
  | fOwner => mkStudentDoc (DocStatus d) x
  end.

Definition kind (v : value) : string :=
  match v with
  | Null => "null"
  | Bool _ => "bool"
  | Number => "number"
  | Str _ => "string"
  | Array _ => "array"
  | Object _ => "object"
  end.

(** [decodeState.saveError] keeps the first error. *)
Definition saveError (saved : option error) (e : error) : option error :=
  match saved with
  | None => Some e
  | Some _ => saved
  end.

(** [decodeState.object] into a [StudentDoc]: the members in their order; a
    string is stored in the field its key names, [null] leaves the field as
    it is, a value of another kind is reported and skipped, a key that names
    no field is skipped. *)
Fixpoint object (m : list (string * value)) (d : StudentDoc)
    (saved : option error) : StudentDoc * option error :=
  match m with
  | [] => (d, saved)
  | (key, v) :: m' =>
    match find_field fields key None with
    | None => object m' d saved
    | Some f =>
      match v with
      | Str x => object m' (store f x d) saved
      | Null => object m' d saved
      | _ => object m' d (saveError saved (UnmarshalTypeError (kind v)))
      end
    end
  end.

(** [json.Unmarshal(data, &v)]: the record after the call and the error
    returned.  Input that is not JSON leaves the record as it was; an object
    is decoded member by member even when one of them is of the wrong kind,
    and the first such error is returned. *)
Definition Unmarshal (data : string) (v : StudentDoc) : StudentDoc * option error :=
  match parse data with
  | None => (v, Some SyntaxError)
  | Some (Object m) => object m v None
  | Some Null => (v, None)
  | Some j => (v, Some (UnmarshalTypeError (kind j)))
  end.

End json.

(** ** The peer, as the chaincode sees it *)

(** [sc.Response]: [shim.Success(payload)], where the payload may be [nil],
    and [shim.Error(msg)]. *)
Inductive Response :=
| Success (payload : option string)
| Error (msg : string).

(** [queryresult.KV] *)
Record KV := mkKV { Key : string; Value : string }.

(** [queryresult.KeyModification]; the time stamp is seconds and nanos. *)
Record KeyModification := mkKeyModification {
  TxId : string;
  KM_Value : string;
  Timestamp : Z * Z;
  IsDelete : bool
}.

(** What [Next] gives: the next record, or an error. *)
Inductive Step (A : Type) :=
| Item (a : A)
| Fault (err : string).
Arguments Item {A} a.
Arguments Fault {A} err.

(** What [GetStateByRange] and [GetHistoryForKey] give: an error, or an
    iterator, which is the sequence of results its [Next] will give until
    [HasNext] is false. *)
Inductive Iterator (A : Type) :=
| OpenError (err : string)
| Open (steps : list (Step A)).
Arguments OpenError {A} err.
Arguments Open {A} steps.

(** Modelled from the spec: the host ledger API of section 6, the part of
    it that is not a plain read or write of the world state.  [rangeScan]
    is [range_scan(startKey, endKey)] over the current world state,
    [historyScan] is [history_scan(key)], and [timeString] is how the
    process prints a time stamp ([time.Unix(s, n).String()], which depends
    on its local time zone). *)
Record Host := mkHost {
  rangeScan : gmap string string -> string -> string -> Iterator KV;
  historyScan : string -> Iterator KeyModification;
  timeString : Z -> Z -> string
}.

(** Modelled from the spec: [range_scan] of a host that does not fail, the
    keys [k] of the world state with [startKey <= k < endKey] in the
    lexical order of their bytes, each with its value. *)
Definition in_range (startKey endKey k : string) : bool :=
  String.leb startKey k && String.ltb k endKey.

Definition scan (m : gmap string string) (startKey endKey : string) : list KV :=
  omap (fun k => match m !! k with
                 | Some v => Some (mkKV k v)
                 | None => None
                 end)
       (merge_sort String.le
          (List.filter (in_range startKey endKey) (map fst (map_to_list m)))).

Definition faithfulRange (m : gmap string string) (startKey endKey : string)
  : Iterator KV :=
  Open (map Item (scan m startKey endKey)).

(** ** The state monad of a transaction *)

(** A handler reads and writes the world state through the stub. *)
Definition M (A : Type) : Type := gmap string string -> A * gmap string string.

Definition ret {A} (a : A) : M A := fun m => (a, m).

Definition bind {A B} (c : M A) (f : A -> M B) : M B :=
  fun m => let '(a, m') := c m in f a m'.

Notation "'let*' x := c 'in' k" := (bind c (fun x => k))
  (at level 10, x name, c at level 100, k at level 200).
Notation "c ;; k" := (bind c (fun _ => k))
  (at level 100, k at level 200, right associativity).

(** [APIstub.GetState(key)]; the bytes, [nil] for a key that is not there.
    The error it also returns is dropped by every caller. *)
Definition GetState (key : string) : M (option string) :=
  fun m => (m !! key, m).

(** [APIstub.PutState(key, value)]; callers drop its error too. *)
Definition PutState (key value : string) : M unit :=
  fun m => (tt, <[key := value]> m).

(** [string(b)] and the argument of [Unmarshal]: [nil] has no bytes. *)
Definition bytes (b : option string) : string :=
  match b with Some s => s | None => "" end.

(** [strconv.Itoa] of a natural number. *)
Fixpoint Itoa_loop (fuel n : nat) (acc : string) : string :=
  let acc' := String (ascii_of_nat (48 + n mod 10)) acc in
  match fuel with
  | O => acc'
  | S fuel' => if (n / 10 =? 0)%nat then acc' else Itoa_loop fuel' (n / 10) acc'
  end.

Definition Itoa (n : nat) : string := Itoa_loop n n "".

(** [strconv.FormatBool] *)
Definition FormatBool (x : bool) : string := if x then "true" else "false".

(** ** The chaincode *)

Section SmartContract.

Variable host : Host.

(** [buffer.WriteString(s)] *)
Definition WriteString (buffer s : string) : string := buffer +:+ s.

Definition Init : M Response := ret (Success None).

Definition queryStudentDoc (args : list string) : M Response :=
  if negb (length args =? 1)%nat
  then ret (Error "Incorrect number of arguments. Expecting 1")
  else
    let* studentDocAsBytes := GetState (nth 0 args "") in
    ret (Success studentDocAsBytes).

Definition studentDocs : list StudentDoc :=
  [ mkStudentDoc "scanned" "Tomoko";
    mkStudentDoc "transmitted responses" "Jack";
    mkStudentDoc "received responses" "John";
    mkStudentDoc "machine scored" "Mark";
    mkStudentDoc "human scored" "Tim";
    mkStudentDoc "scores exported" "Jane";
    mkStudentDoc "transmitted scores" "Peter";
    mkStudentDoc "received scores" "Sid";
    mkStudentDoc "scores reported" "Mesut" ].

(** The loop [for i < len(studentDocs)] of [initLedger], from [i] on;
    [rest] is [studentDocs[i:]]. *)
Fixpoint initLedger_loop (i : nat) (rest : list StudentDoc) : M unit :=
  match rest with
  | [] => ret tt
  | doc :: rest' =>
    let studentDocAsBytes := json.Marshal doc in
    PutState ("StudentDoc" +:+ Itoa i) studentDocAsBytes ;;
    initLedger_loop (i + 1) rest'
  end.

Definition initLedger : M Response :=
  initLedger_loop 0 studentDocs ;;
  ret (Success None).

Definition createStudentDoc (args : list string) : M Response :=
  if negb (length args =? 3)%nat
  then ret (Error "Incorrect number of arguments. Expecting 3")
  else
    let studentDoc := mkStudentDoc (nth 1 args "") (nth 2 args "") in
    let studentDocAsBytes := json.Marshal studentDoc in
    PutState (nth 0 args "") studentDocAsBytes ;;
    ret (Success None).

(** The loop [for resultsIterator.HasNext()] of [queryAllStudentDocs]: the
    buffer at the end, or the error of a [Next] that failed. *)
Fixpoint queryAll_loop (steps : list (Step KV)) (buffer : string)
    (bArrayMemberAlreadyWritten : bool) : string + string :=
  match steps with
  | [] => inr buffer
  | Fault err :: _ => inl err
  | Item queryResponse :: steps' =>
    let buffer := if bArrayMemberAlreadyWritten
                  then WriteString buffer "," else buffer in
    let buffer := WriteString buffer ("{" +:+ DQ +:+ "Key" +:+ DQ +:+ ":") in
    let buffer := WriteString buffer DQ in
    let buffer := WriteString buffer (Key queryResponse) in
    let buffer := WriteString buffer DQ in
    let buffer := WriteString buffer (", " +:+ DQ +:+ "Record" +:+ DQ +:+ ":") in
    let buffer := WriteString buffer (Value queryResponse) in
    let buffer := WriteString buffer "}" in
    queryAll_loop steps' buffer true
  end.

Definition queryAllStudentDocs : M Response :=
  fun m =>
    let startKey := "StudentDoc0" in
    let endKey := "StudentDoc999" in
    match rangeScan host m startKey endKey with
    | OpenError err => (Error err, m)
    | Open steps =>
      let buffer := WriteString "" "[" in
      match queryAll_loop steps buffer false with
      | inl err => (Error err, m)
      | inr buffer =>
        let buffer := WriteString buffer "]" in
        (Success (Some buffer), m)
      end
    end.

Definition changeStudentDocOwner (args : list string) : M Response :=
  if negb (length args =? 2)%nat
  then ret (Error "Incorrect number of arguments. Expecting 2")
  else
    let* studentDocAsBytes := GetState (nth 0 args "") in
    let studentDoc := zeroStudentDoc in
    let studentDoc := fst (json.Unmarshal (bytes studentDocAsBytes) studentDoc) in
    let studentDoc := mkStudentDoc (DocStatus studentDoc) (nth 1 args "") in
    let studentDocAsBytes := json.Marshal studentDoc in
    PutState (nth 0 args "") studentDocAsBytes ;;
    ret (Success None).

Definition changeStudentDocStatus (args : list string) : M Response :=
  if negb (length args =? 3)%nat
  then ret (Error "Incorrect number of arguments. Expecting 3")
  else
    let* studentDocAsBytes := GetState (nth 0 args "") in
    let studentDoc := zeroStudentDoc in
    let studentDoc := fst (json.Unmarshal (bytes studentDocAsBytes) studentDoc) in
    let studentDoc := mkStudentDoc (DocStatus studentDoc) (nth 1 args "") in
    let studentDoc := mkStudentDoc (nth 2 args "") (Owner studentDoc) in
    let studentDocAsBytes := json.Marshal studentDoc in
    PutState (nth 0 args "") studentDocAsBytes ;;
    ret (Success None).

(** The loop [for resultsIterator.HasNext()] of [getHistoryForStudentDoc]. *)
Fixpoint getHistory_loop (steps : list (Step KeyModification)) (buffer : string)
    (bArrayMemberAlreadyWritten : bool) : string + string :=
  match steps with
  | [] => inr buffer
  | Fault err :: _ => inl err
  | Item response :: steps' =>
    let buffer := if bArrayMemberAlreadyWritten
                  then WriteString buffer "," else buffer in
    let buffer := WriteString buffer ("{" +:+ DQ +:+ "TxId" +:+ DQ +:+ ":") in
    let buffer := WriteString buffer DQ in
    let buffer := WriteString buffer (TxId response) in
    let buffer := WriteString buffer DQ in
    let buffer := WriteString buffer (", " +:+ DQ +:+ "Value" +:+ DQ +:+ ":") in
    let buffer := if IsDelete response
                  then WriteString buffer "null"
                  else WriteString buffer (KM_Value response) in
    let buffer := WriteString buffer (", " +:+ DQ +:+ "Timestamp" +:+ DQ +:+ ":") in
    let buffer := WriteString buffer DQ in
    let buffer := WriteString buffer
                    (timeString host (fst (Timestamp response))
                                     (snd (Timestamp response))) in
    let buffer := WriteString buffer DQ in
    let buffer := WriteString buffer (", " +:+ DQ +:+ "IsDelete" +:+ DQ +:+ ":") in
    let buffer := WriteString buffer DQ in
    let buffer := WriteString buffer (FormatBool (IsDelete response)) in
    let buffer := WriteString buffer DQ in
    let buffer := WriteString buffer "}" in
    getHistory_loop steps' buffer true
  end.

Definition getHistoryForStudentDoc (args : list string) : M Response :=
  fun m =>
    if (length args <? 1)%nat
    then (Error "Incorrect number of arguments. Expecting 1", m)
    else
      let docId := nth 0 args "" in
      match historyScan host docId with
      | OpenError err => (Error err, m)
      | Open steps =>
        let buffer := WriteString "" "[" in
        match getHistory_loop steps buffer false with
        | inl err => (Error err, m)
        | inr buffer =>
          let buffer := WriteString buffer "]" in
          (Success (Some buffer), m)
        end
      end.

(** [Invoke], on the function name and the arguments that
    [GetFunctionAndParameters] gives. *)
Definition Invoke (function : string) (args : list string) : M Response :=
  if String.eqb function "queryStudentDoc" then queryStudentDoc args
  else if String.eqb function "initLedger" then initLedger
  else if String.eqb function "createStudentDoc" then createStudentDoc args
  else if String.eqb function "queryAllStudentDocs" then queryAllStudentDocs
  else if String.eqb function "changeStudentDocOwner" then changeStudentDocOwner args
  else if String.eqb function "changeStudentDocStatus" then changeStudentDocStatus args
  else if String.eqb function "getHistoryForStudentDoc" then getHistoryForStudentDoc args
  else ret (Error (function +:+ ": Invalid Smart Contract function name.")).

End SmartContract.

(** * Properties *)

(** ** Dispatch and arity *)

(** The seven names [Invoke] knows. *)
Definition handler_names : list string :=
  [ "queryStudentDoc"; "initLedger"; "createStudentDoc"; "queryAllStudentDocs";
    "changeStudentDocOwner"; "changeStudentDocStatus"; "getHistoryForStudentDoc" ].

Lemma eqb_false_of_ne (a c : string) : a <> c -> String.eqb a c = false.
Proof. intros H. apply String.eqb_neq. exact H. Qed.

(** C7: a function name that is none of the seven gets a failure whose
    message starts with that name and leaves the world state alone; each of
    the seven names runs its own handler and no other. *)
Theorem Invoke_dispatch (host : Host) (function : string) (args : list string) :
  (function ∉ handler_names ->
   forall m, Invoke host function args m
             = (Error (function +:+ ": Invalid Smart Contract function name."), m))
  /\ Invoke host "queryStudentDoc" args = queryStudentDoc args
  /\ Invoke host "initLedger" args = initLedger
  /\ Invoke host "createStudentDoc" args = createStudentDoc args
  /\ Invoke host "queryAllStudentDocs" args = queryAllStudentDocs host
  /\ Invoke host "changeStudentDocOwner" args = changeStudentDocOwner args
  /\ Invoke host "changeStudentDocStatus" args = changeStudentDocStatus args
  /\ Invoke host "getHistoryForStudentDoc" args = getHistoryForStudentDoc host args.
Proof.
  split; [|repeat split; reflexivity].
  intros Hn m. unfold Invoke.
  assert (Hne : forall n, n ∈ handler_names -> String.eqb function n = false).
  { intros n Hin. apply eqb_false_of_ne. intros ->. contradiction. }
  unfold handler_names in Hne.
  rewrite !Hne by set_solver. reflexivity.
Qed.

(** A peer with an empty history that never fails a scan. *)
Definition quietHost : Host :=
  mkHost faithfulRange (fun _ => Open []) (fun _ _ => "").

Lemma Invoke_dispatch_witness :
  ("deleteStudentDoc" ∉ handler_names)
  /\ Invoke quietHost "deleteStudentDoc" ["doc1"] ∅
     = (Error "deleteStudentDoc: Invalid Smart Contract function name.", ∅).
Proof.
  assert (H : "deleteStudentDoc" ∉ handler_names).
  { unfold handler_names. set_solver. }
  split; [exact H|].
  exact (proj1 (Invoke_dispatch quietHost "deleteStudentDoc" ["doc1"]) H ∅).
Defined.

(** The four handlers that compare the number of arguments with [!=]
    refuse every other number of arguments and write nothing. *)
Lemma wrong_arity_refused (args : list string) (m : gmap string string) :
  (length args <> 1 ->
   queryStudentDoc args m
   = (Error "Incorrect number of arguments. Expecting 1", m))
  /\ (length args <> 3 ->
      createStudentDoc args m
      = (Error "Incorrect number of arguments. Expecting 3", m))
  /\ (length args <> 2 ->
      changeStudentDocOwner args m
      = (Error "Incorrect number of arguments. Expecting 2", m))
  /\ (length args <> 3 ->
      changeStudentDocStatus args m
      = (Error "Incorrect number of arguments. Expecting 3", m)).
Proof.
  unfold queryStudentDoc, createStudentDoc, changeStudentDocOwner,
    changeStudentDocStatus.
  repeat split; intros H; apply Nat.eqb_neq in H; rewrite H; reflexivity.
Qed.

(** C1, where the code departs from it: [getHistoryForStudentDoc] tests
    [len(args) < 1], so two arguments are not refused; the second one is
    ignored and the history of the first is returned as a success. *)
Theorem getHistoryForStudentDoc_two_args :
  getHistoryForStudentDoc quietHost ["doc1"; "extra"] ∅
  = (Success (Some "[]"), ∅).
Proof. reflexivity. Qed.

(** [getHistoryForStudentDoc] refuses the empty argument list only: any
    longer list is served from its first element. *)
Lemma getHistoryForStudentDoc_arity (host : Host) (args : list string)
    (m : gmap string string) :
  (args = [] ->
   getHistoryForStudentDoc host args m
   = (Error "Incorrect number of arguments. Expecting 1", m))
  /\ (forall docId rest, args = docId :: rest ->
      getHistoryForStudentDoc host args m
      = getHistoryForStudentDoc host [docId] m).
Proof.
  split.
  - intros ->. reflexivity.
  - intros docId rest ->. reflexivity.
Qed.

(** ** Reads *)

(** C8: with one argument [queryStudentDoc] succeeds with exactly what the
    world state holds under the key, the [nil] payload for a key that is not
    there, and so never fails for an absent key. *)
Theorem queryStudentDoc_raw (key : string) (m : gmap string string) :
  queryStudentDoc [key] m = (Success (m !! key), m)
  /\ (m !! key = None -> queryStudentDoc [key] m = (Success None, m)).
Proof.
  split; [reflexivity|]. intros H. unfold queryStudentDoc. simpl.
  unfold bind, GetState, ret. simpl. rewrite H. reflexivity.
Qed.

Lemma queryStudentDoc_raw_witness :
  ((∅ : gmap string string) !! "doc9" = None)
  /\ queryStudentDoc ["doc9"] ∅ = (Success None, ∅).
Proof.
  split; [reflexivity|].
  apply (proj2 (queryStudentDoc_raw "doc9" ∅)). reflexivity.
Defined.

(** The four names whose handlers call [PutState]. *)
Definition writer_names : list string :=
  [ "initLedger"; "createStudentDoc"; "changeStudentDocOwner";
    "changeStudentDocStatus" ].

(** C10: the three query handlers leave the world state as it was, whatever
    the arguments, the state and the peer's scans; and an invocation that
    changes the world state is one of the four writers. *)
Theorem queries_write_nothing (host : Host) (args : list string)
    (m : gmap string string) :
  snd (queryStudentDoc args m) = m
  /\ snd (queryAllStudentDocs host m) = m
  /\ snd (getHistoryForStudentDoc host args m) = m
  /\ (forall function, snd (Invoke host function args m) <> m ->
      function ∈ writer_names).
Proof.
  assert (Hq : snd (queryStudentDoc args m) = m).
  { unfold queryStudentDoc. destruct (negb _); reflexivity. }
  assert (Ha : snd (queryAllStudentDocs host m) = m).
  { unfold queryAllStudentDocs. destruct (rangeScan _ _ _ _); [reflexivity|].
    destruct (queryAll_loop _ _ _); reflexivity. }
  assert (Hh : snd (getHistoryForStudentDoc host args m) = m).
  { unfold getHistoryForStudentDoc. destruct (_ <? _)%nat; [reflexivity|].
    destruct (historyScan _ _); [reflexivity|].
    destruct (getHistory_loop _ _ _ _); reflexivity. }
  repeat split; try assumption.
  intros function Hne. unfold Invoke in Hne. unfold writer_names.
  destruct (String.eqb_spec function "queryStudentDoc"); [contradiction|].
  destruct (String.eqb_spec function "initLedger"); [set_solver|].
  destruct (String.eqb_spec function "createStudentDoc"); [set_solver|].
  destruct (String.eqb_spec function "queryAllStudentDocs"); [contradiction|].
  destruct (String.eqb_spec function "changeStudentDocOwner"); [set_solver|].
  destruct (String.eqb_spec function "changeStudentDocStatus"); [set_solver|].
  destruct (String.eqb_spec function "getHistoryForStudentDoc"); [contradiction|].
  exfalso. apply Hne. reflexivity.
Qed.

Lemma queries_write_nothing_witness :
  (snd (Invoke quietHost "createStudentDoc" ["doc1"; "scanned"; "Alice"] ∅) <> ∅)
  /\ ("createStudentDoc" ∈ writer_names).
Proof.
  assert (H : snd (Invoke quietHost "createStudentDoc"
                     ["doc1"; "scanned"; "Alice"] ∅) <> ∅).
  { intros E. apply (f_equal (fun m : gmap string string => m !! "doc1")) in E.
    vm_compute in E. discriminate E. }
  split; [exact H|].
  exact (proj2 (proj2 (proj2 (queries_write_nothing quietHost
           ["doc1"; "scanned"; "Alice"] ∅))) "createStudentDoc" H).
Defined.

(** ** Writes *)

(** The stored bytes decode to the record [d]: [Unmarshal] into a zero
    record returns no error and leaves [d]. *)
Definition decodes_to (stored : string) (d : StudentDoc) : Prop :=
  json.Unmarshal stored zeroStudentDoc = (d, None).

(** What both mutate handlers do with the record under [key], for every
    world state: they decode whatever is there into a zero record, drop the
    error, set their fields and write the result back. *)
Lemma changeStudentDocOwner_run (key newOwner : string) (m : gmap string string) :
  changeStudentDocOwner [key; newOwner] m
  = (Success None,
     <[key := json.Marshal
                (mkStudentDoc
                   (DocStatus (fst (json.Unmarshal (bytes (m !! key))
                                                   zeroStudentDoc)))
                   newOwner)]> m).
Proof. reflexivity. Qed.




(** A world state with one record. *)
Definition oneDoc : gmap string string :=
  {[ "doc1" := json.Marshal (mkStudentDoc "scanned" "Alice") ]}.



(** *** Decode errors in the mutate handlers *)


(** The bytes are not a JSON object: they are not JSON at all, or a JSON
    value of another kind. *)
Definition not_an_object (stored : string) : Prop :=
  match json.parse stored with
  | Some (json.Object _) => False
  | _ => True
  end.

(** A record whose owner is a number: [Unmarshal] reports the owner and
    still stores the status. *)
Definition ownerIsNumber : string :=
  "{" +:+ DQ +:+ "docStatus" +:+ DQ +:+ ":" +:+ DQ +:+ "scanned" +:+ DQ
  +:+ "," +:+ DQ +:+ "owner" +:+ DQ +:+ ":7}".

Example Unmarshal_ownerIsNumber :
  json.Unmarshal ownerIsNumber zeroStudentDoc
  = (mkStudentDoc "scanned" "", Some (json.UnmarshalTypeError "number")).
Proof. vm_compute. reflexivity. Qed.




(** An absent key is a case of [not_an_object], and so is every input the
    scanner rejects. *)
Lemma absent_not_an_object (key : string) (m : gmap string string) :
  m !! key = None -> not_an_object (bytes (m !! key)).
Proof. intros ->. vm_compute. exact I. Qed.

(** ** History *)

(** The array the claim describes, written without the loop: the entries
    in their order, a comma between neighbours, brackets around. *)
Fixpoint join (sep : string) (l : list string) : string :=
  match l with
  | [] => ""
  | [x] => x
  | x :: l' => x +:+ sep +:+ join sep l'
  end.

Definition json_array (entries : list string) : string :=
  "[" +:+ join "," entries +:+ "]".

(** The [Value] member of an entry: [null] for a tombstone, otherwise the
    stored bytes as they are. *)
Definition value_member (e : KeyModification) : string :=
  if IsDelete e then "null" else KM_Value e.

(** One entry of the history array. *)
Definition history_entry (host : Host) (e : KeyModification) : string :=
  "{" +:+ DQ +:+ "TxId" +:+ DQ +:+ ":" +:+ DQ +:+ TxId e +:+ DQ
  +:+ ", " +:+ DQ +:+ "Value" +:+ DQ +:+ ":" +:+ value_member e
  +:+ ", " +:+ DQ +:+ "Timestamp" +:+ DQ +:+ ":" +:+ DQ
  +:+ timeString host (fst (Timestamp e)) (snd (Timestamp e)) +:+ DQ
  +:+ ", " +:+ DQ +:+ "IsDelete" +:+ DQ +:+ ":" +:+ DQ
  +:+ FormatBool (IsDelete e) +:+ DQ +:+ "}".

(** What a loop over entries appends to its buffer, given whether a member
    was written before. *)
Fixpoint members (written : bool) (entries : list string) : string :=
  match entries with
  | [] => ""
  | x :: l => (if written then "," else "") +:+ x +:+ members true l
  end.

Lemma members_join (entries : list string) :
  members false entries = join "," entries.
Proof.
  destruct entries as [|x l]; [reflexivity|].
  simpl members. rewrite app_nil_l. revert x.
  induction l as [|y l IH]; intros x.
  - simpl. apply app_nil_r.
  - change (join "," (x :: y :: l)) with (x +:+ "," +:+ join "," (y :: l)).
    rewrite <- (IH y). reflexivity.
Qed.



(** A peer whose history of every key is a write followed by a delete. *)
Definition twoEntries : list KeyModification :=
  [ mkKeyModification "tx1" (json.Marshal (mkStudentDoc "scanned" "Alice"))
      (1, 0)%Z false;
    mkKeyModification "tx2" "" (2, 0)%Z true ].

Definition historyHost : Host :=
  mkHost faithfulRange (fun _ => Open (map Item twoEntries)) (fun _ _ => "t").


(** The array of [twoEntries], spelt out. *)
Example history_of_twoEntries :
  fst (getHistoryForStudentDoc historyHost ["doc1"] ∅)
  = Success (Some
      ("[{" +:+ DQ +:+ "TxId" +:+ DQ +:+ ":" +:+ DQ +:+ "tx1" +:+ DQ
       +:+ ", " +:+ DQ +:+ "Value" +:+ DQ +:+ ":{" +:+ DQ +:+ "docStatus" +:+ DQ
       +:+ ":" +:+ DQ +:+ "scanned" +:+ DQ +:+ "," +:+ DQ +:+ "owner" +:+ DQ
       +:+ ":" +:+ DQ +:+ "Alice" +:+ DQ +:+ "}, " +:+ DQ +:+ "Timestamp" +:+ DQ
       +:+ ":" +:+ DQ +:+ "t" +:+ DQ +:+ ", " +:+ DQ +:+ "IsDelete" +:+ DQ
       +:+ ":" +:+ DQ +:+ "false" +:+ DQ +:+ "},{" +:+ DQ +:+ "TxId" +:+ DQ
       +:+ ":" +:+ DQ +:+ "tx2" +:+ DQ +:+ ", " +:+ DQ +:+ "Value" +:+ DQ
       +:+ ":null, " +:+ DQ +:+ "Timestamp" +:+ DQ +:+ ":" +:+ DQ +:+ "t" +:+ DQ
       +:+ ", " +:+ DQ +:+ "IsDelete" +:+ DQ +:+ ":" +:+ DQ +:+ "true" +:+ DQ
       +:+ "}]")).
Proof. vm_compute. reflexivity. Qed.

(** ** Range query *)

(** One entry of the array of [queryAllStudentDocs]. *)
Definition record_entry (kv : KV) : string :=
  "{" +:+ DQ +:+ "Key" +:+ DQ +:+ ":" +:+ DQ +:+ Key kv +:+ DQ
  +:+ ", " +:+ DQ +:+ "Record" +:+ DQ +:+ ":" +:+ Value kv +:+ "}".

Lemma queryAll_loop_members (kvs : list KV) (buffer : string) (written : bool) :
  queryAll_loop (map Item kvs) buffer written
  = inr (buffer +:+ members written (map record_entry kvs)).
Proof.
  revert buffer written.
  induction kvs as [|kv kvs IH]; intros buffer written.
  - simpl. rewrite app_nil_r. reflexivity.
  - simpl map. simpl queryAll_loop. rewrite IH. f_equal.
    unfold WriteString, record_entry. simpl members.
    destruct written; rewrite ?app_assoc, ?app_nil_l; reflexivity.
Qed.

(** With a peer whose range scan does not fail, the handler returns the
    array of the records in the range, in the order of their keys. *)
Lemma queryAllStudentDocs_faithful (host : Host) (m : gmap string string) :
  rangeScan host m "StudentDoc0" "StudentDoc999"
  = faithfulRange m "StudentDoc0" "StudentDoc999" ->
  queryAllStudentDocs host m
  = (Success (Some (json_array
                      (map record_entry
                           (scan m "StudentDoc0" "StudentDoc999")))), m).
Proof.
  intros Hr. unfold queryAllStudentDocs. rewrite Hr. unfold faithfulRange.
  rewrite queryAll_loop_members. unfold WriteString, json_array.
  rewrite members_join, app_nil_l, app_assoc. reflexivity.
Qed.

(** The keys a scan returns are the keys of the world state in the range,
    each once, in ascending order: a sorted duplicate-free list with these
    members is the list of keys scanned. *)
Lemma scan_keys (m : gmap string string) (startKey endKey : string)
    (ks : list string) :
  Sorted String.le ks ->
  NoDup ks ->
  (forall k, k ∈ ks <-> in_range startKey endKey k = true /\ is_Some (m !! k)) ->
  merge_sort String.le
    (List.filter (in_range startKey endKey) (map fst (map_to_list m))) = ks.
Proof.
  intros Hs Hnd Hmem.
  apply (Sorted_unique String.le); [apply Sorted_merge_sort, _|exact Hs|].
  rewrite merge_sort_Permutation.
  apply NoDup_Permutation; [|exact Hnd|].
  - apply NoDup_ListNoDup, List.NoDup_filter, NoDup_ListNoDup.
    apply (NoDup_fst_map_to_list m).
  - intros k. rewrite Hmem, list_elem_of_In, List.filter_In, <- list_elem_of_In.
    change (map fst (map_to_list m)) with ((map_to_list m).*1).
    rewrite list_elem_of_fmap. split.
    + intros [[[k' v] [-> Hin]] Hr]. split; [exact Hr|].
      apply elem_of_map_to_list in Hin. simpl. rewrite Hin. eauto.
    + intros [Hr [v Hv]]. split; [|exact Hr].
      exists (k, v). split; [reflexivity|]. apply elem_of_map_to_list. exact Hv.
Qed.

(** The records [initLedger] writes, with their keys. *)
Definition seedKVs : list KV :=
  [ mkKV "StudentDoc0" (json.Marshal (mkStudentDoc "scanned" "Tomoko"));
    mkKV "StudentDoc1" (json.Marshal (mkStudentDoc "transmitted responses" "Jack"));
    mkKV "StudentDoc2" (json.Marshal (mkStudentDoc "received responses" "John"));
    mkKV "StudentDoc3" (json.Marshal (mkStudentDoc "machine scored" "Mark"));
    mkKV "StudentDoc4" (json.Marshal (mkStudentDoc "human scored" "Tim"));
    mkKV "StudentDoc5" (json.Marshal (mkStudentDoc "scores exported" "Jane"));
    mkKV "StudentDoc6" (json.Marshal (mkStudentDoc "transmitted scores" "Peter"));
    mkKV "StudentDoc7" (json.Marshal (mkStudentDoc "received scores" "Sid"));
    mkKV "StudentDoc8" (json.Marshal (mkStudentDoc "scores reported" "Mesut")) ].

(** A sequence of [PutState] calls. *)
Definition put_all (kvs : list KV) (m : gmap string string) : gmap string string :=
  foldl (fun acc kv => <[Key kv := Value kv]> acc) m kvs.
Arguments put_all : simpl never.

Lemma initLedger_run (m : gmap string string) :
  initLedger m = (Success None, put_all seedKVs m).
Proof. reflexivity. Qed.

Lemma put_all_other (kvs : list KV) (m : gmap string string) (k : string) :
  k ∉ map Key kvs -> put_all kvs m !! k = m !! k.
Proof.
  revert m. induction kvs as [|kv kvs IH]; intros m Hk; [reflexivity|].
  simpl in Hk. apply not_elem_of_cons in Hk as [Hne Hk].
  unfold put_all. simpl. fold (put_all kvs (<[Key kv := Value kv]> m)).
  rewrite IH by exact Hk. apply lookup_insert_ne. congruence.
Qed.

Lemma put_all_member (kvs : list KV) (m : gmap string string) (kv : KV) :
  NoDup (map Key kvs) -> kv ∈ kvs -> put_all kvs m !! Key kv = Some (Value kv).
Proof.
  revert m. induction kvs as [|kv' kvs IH]; intros m Hnd Hin.
  - inversion Hin.
  - simpl in Hnd. apply NoDup_cons in Hnd as [Hfirst Hnd].
    unfold put_all. simpl. fold (put_all kvs (<[Key kv' := Value kv']> m)).
    apply elem_of_cons in Hin as [->|Hin].
    + rewrite put_all_other by exact Hfirst. apply lookup_insert_eq.
    + apply IH; assumption.
Qed.

(** No key of the world state lies in the range [queryAllStudentDocs]
    scans. *)
Definition range_empty (m : gmap string string) : Prop :=
  forall k, in_range "StudentDoc0" "StudentDoc999" k = true -> m !! k = None.

Lemma seed_keys_NoDup : NoDup (map Key seedKVs).
Proof. apply (bool_decide_unpack _). vm_compute. exact I. Qed.

Lemma seed_keys_in_range :
  Forall (fun k => in_range "StudentDoc0" "StudentDoc999" k = true)
         (map Key seedKVs).
Proof. repeat constructor. Qed.

Lemma seed_keys_Sorted : Sorted String.le (map Key seedKVs).
Proof. repeat constructor. Qed.

Lemma scan_after_initLedger (m : gmap string string) :
  range_empty m ->
  scan (snd (initLedger m)) "StudentDoc0" "StudentDoc999" = seedKVs.
Proof.
  intros Hfresh. rewrite initLedger_run. unfold scan. simpl snd.
  rewrite (scan_keys _ _ _ (map Key seedKVs)).
  - assert (H : forall l, (forall kv, kv ∈ l -> kv ∈ seedKVs) ->
                omap (fun k => match put_all seedKVs m !! k with
                               | Some v => Some (mkKV k v)
                               | None => None
                               end) (map Key l) = l).
    { induction l as [|kv l IH]; intros Hl; [reflexivity|].
      simpl. rewrite (put_all_member seedKVs m kv seed_keys_NoDup)
        by (apply Hl; left).
      destruct kv as [k v]. simpl. f_equal. apply IH.
      intros kv' Hin. apply Hl. right. exact Hin. }
    apply H. auto.
  - exact seed_keys_Sorted.
  - exact seed_keys_NoDup.
  - intros k. split.
    + intros Hin. split.
      * exact (proj1 (Forall_forall _ _) seed_keys_in_range k Hin).
      * apply list_elem_of_fmap in Hin as [kv [-> Hkv]].
        rewrite (put_all_member seedKVs m kv seed_keys_NoDup Hkv). eauto.
    + intros [Hr Hs]. destruct (decide (k ∈ map Key seedKVs)) as [|Hn]; [assumption|].
      rewrite (put_all_other seedKVs m k Hn), (Hfresh k Hr) in Hs.
      destruct Hs as [? Hs]. discriminate Hs.
Qed.

(** C3: on a world state with no key in the scanned range, with a peer
    whose range scan does not fail, [initLedger] followed by
    [queryAllStudentDocs] succeeds with the array of exactly nine entries,
    keys [StudentDoc0] to [StudentDoc8] in ascending order, each with the
    record [initLedger] has for it, which decodes to the seed record. *)
Theorem initLedger_then_queryAll (host : Host) (m : gmap string string) :
  rangeScan host (snd (initLedger m)) "StudentDoc0" "StudentDoc999"
  = faithfulRange (snd (initLedger m)) "StudentDoc0" "StudentDoc999" ->
  range_empty m ->
  queryAllStudentDocs host (snd (initLedger m))
  = (Success (Some (json_array (map record_entry seedKVs))), snd (initLedger m))
  /\ length seedKVs = 9
  /\ map Key seedKVs = map (fun i => "StudentDoc" +:+ Itoa i) (seq 0 9)
  /\ Sorted String.le (map Key seedKVs)
  /\ Forall2 (fun kv d => decodes_to (Value kv) d) seedKVs studentDocs.
Proof.
  intros Hr Hfresh. split; [|split; [|split; [|split]]].
  - rewrite (queryAllStudentDocs_faithful host _ Hr).
    rewrite (scan_after_initLedger m Hfresh). reflexivity.
  - reflexivity.
  - reflexivity.
  - exact seed_keys_Sorted.
  - unfold seedKVs, studentDocs, decodes_to.
    repeat (constructor; [vm_compute; reflexivity|]). constructor.
Qed.

Lemma initLedger_then_queryAll_witness :
  queryAllStudentDocs quietHost (snd (initLedger ∅))
  = (Success (Some (json_array (map record_entry seedKVs))), snd (initLedger ∅)).
Proof.
  apply (initLedger_then_queryAll quietHost ∅).
  - reflexivity.
  - intros k _. apply lookup_empty.
Defined.

(** The first entry of that array, spelt out. *)
Example first_seed_entry :
  record_entry (mkKV "StudentDoc0" (json.Marshal (mkStudentDoc "scanned" "Tomoko")))
  = "{" +:+ DQ +:+ "Key" +:+ DQ +:+ ":" +:+ DQ +:+ "StudentDoc0" +:+ DQ
    +:+ ", " +:+ DQ +:+ "Record" +:+ DQ +:+ ":{" +:+ DQ +:+ "docStatus" +:+ DQ
    +:+ ":" +:+ DQ +:+ "scanned" +:+ DQ +:+ "," +:+ DQ +:+ "owner" +:+ DQ
    +:+ ":" +:+ DQ +:+ "Tomoko" +:+ DQ +:+ "}}".
Proof. vm_compute. reflexivity. Qed.

(** ** Round trip through JSON *)

(** Quotients and remainders by a constant, for [lia]. *)
Ltac Zify.zify_post_hook ::= Z.to_euclidean_division_equations.

Lemma byte_lt_256 (c : ascii) : (byte c < 256)%N.
Proof. apply N_ascii_bounded. Qed.

Lemma ascii_of_byte (c : ascii) (n : N) : n = byte c -> ascii_of_N n = c.
Proof. intros ->. apply ascii_N_embedding. Qed.

Lemma prefix_skip (n : nat) (s : string) : prefix n s +:+ skip n s = s.
Proof.
  revert s. induction n as [|n IH]; intros [|c s]; try reflexivity.
  simpl. rewrite ?app_cons. f_equal. apply IH.
Qed.

Lemma skip_prefix_app (n : nat) (s x : string) :
  n <= String.length s -> skip n (prefix n s +:+ x) = x.
Proof.
  revert s. induction n as [|n IH]; intros [|c s] Hn; simpl in *; try lia;
    try reflexivity.
  rewrite ?app_cons. simpl. apply IH. lia.
Qed.

Lemma length_skip (n : nat) (s : string) :
  String.length (skip n s) = String.length s - n.
Proof.
  revert s. induction n as [|n IH]; intros [|c s]; simpl; try reflexivity; try lia.
  apply IH.
Qed.

Lemma first_inv (n0 : N) (sz : nat) (lo hi : N) :
  utf8.first n0 = Some (sz, lo, hi) ->
  (sz = 2 /\ (0xC2 <= n0 <= 0xDF /\ lo = 0x80 /\ hi = 0xBF)%N)
  \/ (sz = 3 /\ (0xE0 <= n0 <= 0xEF /\ 0x80 <= lo /\ hi <= 0xBF
                 /\ (n0 = 0xE0 -> lo = 0xA0) /\ (n0 = 0xED -> hi = 0x9F))%N)
  \/ (sz = 4 /\ (0xF0 <= n0 <= 0xF4 /\ 0x80 <= lo /\ hi <= 0xBF
                 /\ (n0 = 0xF0 -> lo = 0x90) /\ (n0 = 0xF4 -> hi = 0x8F))%N).
Proof.
  unfold utf8.first.
  repeat match goal with
         | |- context [(?a <=? ?c)%N] => destruct (N.leb_spec a c)
         | |- context [(?a =? ?c)%N] => destruct (N.eqb_spec a c)
         end; simpl; intros [= <- <- <-]; lia.
Qed.

Ltac split_if E :=
  match goal with
  | H : context [if ?c then _ else _] |- _ => destruct c eqn:E
  end.

(** A well-formed sequence of two to four bytes, as [DecodeRune] accepts
    it: the rune is encoded back to the same bytes, and what follows the
    sequence plays no part. *)
Lemma DecodeRune_wellformed (s : string) (r : N) (size : nat) :
  utf8.DecodeRune s = (r, size) -> size <> 0 -> size <> 1 ->
  size <= String.length s
  /\ utf8.EncodeRune r = prefix size s
  /\ (0x80 <= r)%N
  /\ (forall x, utf8.DecodeRune (prefix size s +:+ x) = (r, size)).
Proof.
  unfold utf8.DecodeRune at 1.
  destruct s as [|c0 t0]; [intros [= <- <-]; contradiction|].
  pose proof (byte_lt_256 c0) as B0.
  destruct (utf8.first (byte c0)) as [[[sz lo] hi]|] eqn:Hfirst;
    [|intros [= <- <-]; contradiction].
  destruct t0 as [|c1 t1]; [intros [= <- <-]; contradiction|].
  pose proof (byte_lt_256 c1) as B1.
  destruct (first_inv _ _ _ _ Hfirst) as [H2|[H3|H4]].
  - destruct H2 as (-> & Hn0 & -> & ->). intros Heq H0 H1.
    simpl in Heq. split_if E1; [injection Heq as <- <-; contradiction|].
    injection Heq as <- <-.
    apply negb_false_iff, andb_true_iff in E1 as [L1 U1].
    apply N.leb_le in L1, U1.
    split; [simpl; lia|]. split; [|split].
    + unfold utf8.EncodeRune.
      destruct (N.leb_spec (byte c0 mod 32 * 64 + byte c1 mod 64) 127); [lia|].
      destruct (N.leb_spec (byte c0 mod 32 * 64 + byte c1 mod 64) 2047); [|lia].
      unfold utf8.b, String.append. simpl prefix. repeat f_equal; apply ascii_of_byte; lia.
    + lia.
    + intros x. simpl. rewrite Hfirst.
      destruct (N.leb_spec 128 (byte c1)); [|lia].
      destruct (N.leb_spec (byte c1) 191); [|lia]. reflexivity.
  - destruct H3 as (-> & Hn0 & Hlo & Hhi & HE0 & HED). intros Heq H0 H1.
    simpl in Heq. split_if E1; [injection Heq as <- <-; contradiction|].
    destruct t1 as [|c2 t2]; [injection Heq as <- <-; contradiction|].
    pose proof (byte_lt_256 c2) as B2.
    split_if E2; [injection Heq as <- <-; contradiction|].
    injection Heq as <- <-.
    apply negb_false_iff, andb_true_iff in E1 as [L1 U1].
    apply negb_false_iff, andb_true_iff in E2 as [L2 U2].
    apply N.leb_le in L1, U1, L2, U2.
    set (r := (byte c0 mod 16 * 4096 + byte c1 mod 64 * 64 + byte c2 mod 64)%N).
    assert (Hr : (0x7FF < r <= 0xFFFF /\ ~ (0xD800 <= r <= 0xDFFF))%N)
      by (unfold r; lia).
    split; [simpl; lia|]. split; [|split].
    + unfold utf8.EncodeRune, utf8.MaxRune.
      destruct (N.leb_spec r 127); [lia|].
      destruct (N.leb_spec r 2047); [lia|].
      destruct (N.ltb_spec 1114111 r); [lia|].
      destruct (N.leb_spec 55296 r), (N.leb_spec r 57343); simpl; try lia;
        destruct (N.leb_spec r 65535); try lia;
        unfold utf8.b, String.append; simpl prefix; repeat f_equal;
        apply ascii_of_byte; unfold r; lia.
    + lia.
    + intros x. simpl. rewrite Hfirst.
      destruct (N.leb_spec lo (byte c1)); [|lia].
      destruct (N.leb_spec (byte c1) hi); [|lia]. simpl.
      unfold utf8.cb.
      destruct (N.leb_spec 128 (byte c2)); [|lia].
      destruct (N.leb_spec (byte c2) 191); [|lia]. reflexivity.
  - destruct H4 as (-> & Hn0 & Hlo & Hhi & HF0 & HF4). intros Heq H0 H1.
    simpl in Heq. split_if E1; [injection Heq as <- <-; contradiction|].
    destruct t1 as [|c2 t2]; [injection Heq as <- <-; contradiction|].
    pose proof (byte_lt_256 c2) as B2.
    split_if E2; [injection Heq as <- <-; contradiction|].
    destruct t2 as [|c3 t3]; [injection Heq as <- <-; contradiction|].
    pose proof (byte_lt_256 c3) as B3.
    split_if E3; [injection Heq as <- <-; contradiction|].
    injection Heq as <- <-.
    apply negb_false_iff, andb_true_iff in E1 as [L1 U1].
    apply negb_false_iff, andb_true_iff in E2 as [L2 U2].
    apply negb_false_iff, andb_true_iff in E3 as [L3 U3].
    apply N.leb_le in L1, U1, L2, U2, L3, U3.
    set (r := (byte c0 mod 8 * 262144 + byte c1 mod 64 * 4096
               + byte c2 mod 64 * 64 + byte c3 mod 64)%N).
    assert (Hr : (0xFFFF < r <= 0x10FFFF)%N) by (unfold r; lia).
    split; [simpl; lia|]. split; [|split].
    + unfold utf8.EncodeRune, utf8.MaxRune.
      destruct (N.leb_spec r 127); [lia|].
      destruct (N.leb_spec r 2047); [lia|].
      destruct (N.ltb_spec 1114111 r); [lia|].
      destruct (N.leb_spec 55296 r), (N.leb_spec r 57343); simpl; try lia;
        destruct (N.leb_spec r 65535); try lia;
        unfold utf8.b, String.append; simpl prefix; repeat f_equal;
        apply ascii_of_byte; unfold r; lia.
    + lia.
    + intros x. simpl. rewrite Hfirst.
      destruct (N.leb_spec lo (byte c1)); [|lia].
      destruct (N.leb_spec (byte c1) hi); [|lia]. simpl.
      unfold utf8.cb.
      destruct (N.leb_spec 128 (byte c2)); [|lia].
      destruct (N.leb_spec (byte c2) 191); [|lia].
      destruct (N.leb_spec 128 (byte c3)); [|lia].
      destruct (N.leb_spec (byte c3) 191); [|lia]. reflexivity.
Qed.

(** One iteration of [unquote_loop] undoes one iteration of [string_loop]
    on an ASCII byte. *)
Lemma unquote_ascii (c : ascii) (k : nat) (x : string) :
  (byte c <? utf8.RuneSelf)%N = true ->
  json.unquote_loop (S k)
    ((if json.htmlSafeSet (byte c) then String c "" else json.escape c) +:+ x)
  = json.emit (String c "") (json.unquote_loop k x).
Proof.
  destruct c as [[] [] [] [] [] [] [] []]; intros H;
    try discriminate H; reflexivity.
Qed.

Lemma unquote_multibyte (c : ascii) (t : string) (k : nat) :
  (byte c <? utf8.RuneSelf)%N = false ->
  json.unquote_loop (S k) (String c t)
  = let '(rr, size) := utf8.DecodeRune (String c t) in
    json.emit (utf8.EncodeRune rr) (json.unquote_loop k (skip size (String c t))).
Proof.
  intros H.
  assert (H' := H). apply N.ltb_ge in H'. unfold utf8.RuneSelf in H'.
  assert (E1 : (byte c =? 34)%N = false) by (apply N.eqb_neq; lia).
  assert (E2 : (byte c =? 92)%N = false) by (apply N.eqb_neq; lia).
  assert (E3 : (byte c <? 32)%N = false) by (apply N.ltb_ge; lia).
  cbn [json.unquote_loop]. cbv zeta. rewrite E1, E2, E3, H. reflexivity.
Qed.

Lemma unquote_separator (r : N) (k : nat) (x : string) :
  (r = 0x2028 \/ r = 0x2029)%N ->
  json.unquote_loop (S k) ("\u202" +:+ json.hex (r mod 16) +:+ x)
  = json.emit (utf8.EncodeRune r) (json.unquote_loop k x).
Proof. intros [-> | ->]; reflexivity. Qed.

Lemma DecodeRune_size_pos (c : ascii) (t : string) :
  snd (utf8.DecodeRune (String c t)) <> 0.
Proof.
  unfold utf8.DecodeRune.
  destruct (utf8.first (byte c)) as [[[sz lo] hi]|]; [|simpl; lia].
  destruct t as [|c1 t1]; [simpl; lia|].
  destruct (negb _); [simpl; lia|]. destruct (sz <=? 2)%nat; [simpl; lia|].
  destruct t1 as [|c2 t2]; [simpl; lia|].
  destruct (negb _); [simpl; lia|]. destruct (sz <=? 3)%nat; [simpl; lia|].
  destruct t2 as [|c3 t3]; [simpl; lia|].
  destruct (negb _); simpl; lia.
Qed.

Lemma emit_Some (pre out rest : string) :
  json.emit pre (Some (out, rest)) = Some (pre +:+ out, rest).
Proof. reflexivity. Qed.

(** What [string_loop] writes for a string is never shorter than one byte
    per iteration, so the iterations [unquote] has left suffice. *)
Lemma unquote_string_loop (L : nat) :
  forall (s : string) (k : nat) (rest : string),
    String.length s <= L ->
    utf8.valid_loop L s = true ->
    String.length (json.string_loop L s) < k ->
    json.unquote_loop k (json.string_loop L s +:+ DQ +:+ rest) = Some (s, rest).
Proof.
  induction L as [|L IH]; intros s k rest Hlen Hvalid Hk.
  - destruct s; [|simpl in Hlen; lia]. simpl in *.
    destruct k as [|k]; [lia|]. reflexivity.
  - destruct s as [|c t].
    { simpl in *. destruct k as [|k]; [lia|]. reflexivity. }
    cbn [json.string_loop] in *. cbn [utf8.valid_loop] in Hvalid.
    destruct (byte c <? utf8.RuneSelf)%N eqn:Hc.
    + rewrite length_app in Hk. rewrite app_assoc.
      destruct k as [|k]; [lia|].
      rewrite unquote_ascii by exact Hc.
      rewrite IH; [reflexivity|simpl in Hlen; lia|exact Hvalid|].
      assert (1 <= String.length
                     (if json.htmlSafeSet (byte c) then String c ""
                      else json.escape c)).
      { destruct (json.htmlSafeSet (byte c)); [simpl; lia|].
        unfold json.escape.
        repeat match goal with
               | |- context [if ?b then _ else _] => destruct b
               end; simpl; lia. }
      lia.
    + pose proof (DecodeRune_size_pos c t) as Hpos.
      destruct (utf8.DecodeRune (String c t)) as [r size] eqn:Hd.
      simpl in Hpos.
      destruct (Nat.eqb_spec size 1) as [|Hne1]; [discriminate Hvalid|].
      destruct (DecodeRune_wellformed _ _ _ Hd Hpos Hne1)
        as (Hsz & Henc & Hr & Hdec).
      rewrite andb_false_r in *.
      assert (Hlen' : String.length (skip size (String c t)) <= L).
      { rewrite length_skip. simpl in *. lia. }
      destruct ((r =? 8232)%N || (r =? 8233)%N) eqn:Hsep.
      * rewrite !app_assoc. rewrite !length_app in Hk.
        destruct k as [|k]; [lia|].
        rewrite unquote_separator.
        2:{ apply orb_true_iff in Hsep as [E|E]; apply N.eqb_eq in E; auto. }
        rewrite IH; [|exact Hlen'|exact Hvalid|simpl in Hk; lia].
        rewrite emit_Some, Henc, prefix_skip. reflexivity.
      * rewrite app_assoc. rewrite length_app in Hk.
        destruct k as [|k]; [lia|].
        assert (Hp : exists t', prefix size (String c t) = String c t').
        { destruct size; [lia|]. simpl. eauto. }
        destruct Hp as [t' Hp]. rewrite Hp, app_cons.
        rewrite unquote_multibyte by exact Hc.
        rewrite <- app_cons, <- Hp, Hdec.
        rewrite skip_prefix_app by exact Hsz.
        rewrite IH; [|exact Hlen'|exact Hvalid|].
        -- rewrite emit_Some, Henc, prefix_skip. reflexivity.
        -- assert (1 <= String.length (prefix size (String c t))).
           { rewrite Hp. simpl. lia. }
           lia.
Qed.

(** [unquote] reads back what [encodeState.string] wrote for a valid UTF-8
    string, and stops after the closing quote. *)
Lemma unquote_quote (s rest : string) :
  utf8.ValidString s = true ->
  json.unquote (json.string_loop (String.length s) s +:+ DQ +:+ rest)
  = Some (s, rest).
Proof.
  intros Hvalid. unfold json.unquote.
  apply unquote_string_loop; [lia|exact Hvalid|].
  rewrite !length_app. simpl. lia.
Qed.

(** The steps of the recursive descent on the shapes [Marshal] writes. *)
Lemma parse_value_string (n : nat) (t x r : string) :
  json.unquote t = Some (x, r) ->
  json.parse_value (S n) (String dq t) = Some (json.Str x, r).
Proof.
  intros H. cbn [json.parse_value]. cbn [json.skip_ws].
  change (json.isSpace dq) with false. cbv iota. cbv zeta.
  change (byte dq =? 123)%N with false.
  change (byte dq =? 91)%N with false.
  change (byte dq =? 34)%N with true. cbv iota.
  rewrite H. reflexivity.
Qed.

Lemma parse_members_last (n : nat) (t key r1 r3 : string) (v : json.value) :
  json.unquote t = Some (key, String ":" r1) ->
  json.parse_value n r1 = Some (v, String "}" r3) ->
  json.parse_members (S n) (String dq t) = Some ([(key, v)], r3).
Proof.
  intros Hk Hv. cbn [json.parse_members].
  change (byte dq =? 34)%N with true. cbv iota.
  rewrite Hk. cbn [json.skip_ws].
  change (json.isSpace ":") with false. cbv iota.
  change (byte ":" =? 58)%N with true. cbv iota.
  rewrite Hv. reflexivity.
Qed.

Lemma parse_members_more (n : nat) (t key r1 r3 r4 : string) (v : json.value)
    (m : list (string * json.value)) :
  json.unquote t = Some (key, String ":" r1) ->
  json.parse_value n r1 = Some (v, String "," (String dq r3)) ->
  json.parse_members n (String dq r3) = Some (m, r4) ->
  json.parse_members (S n) (String dq t) = Some ((key, v) :: m, r4).
Proof.
  intros Hk Hv Hm. cbn [json.parse_members].
  change (byte dq =? 34)%N with true. cbv iota.
  rewrite Hk. cbn [json.skip_ws].
  change (json.isSpace ":") with false. cbv iota.
  change (byte ":" =? 58)%N with true. cbv iota.
  rewrite Hv. cbn [json.skip_ws].
  change (json.isSpace ",") with false. cbv iota.
  change (byte "," =? 44)%N with true. cbv iota.
  change (json.skip_ws (String dq r3)) with (String dq r3).
  rewrite Hm. reflexivity.
Qed.

Lemma parse_value_object (n : nat) (t r : string)
    (m : list (string * json.value)) :
  json.parse_members n (String dq t) = Some (m, r) ->
  json.parse_value (S n) (String "{" (String dq t)) = Some (json.Object m, r).
Proof.
  intros Hm. cbn [json.parse_value].
  change (json.skip_ws (String "{" (String dq t))) with (String "{" (String dq t)).
  change (json.skip_ws (String dq t)) with (String dq t).
  cbv iota. cbv zeta.
  change (byte "{" =? 123)%N with true. cbv iota.
  change (json.skip_ws (String dq t)) with (String dq t). cbv iota.
  change (byte dq =? 125)%N with false. cbv iota.
  rewrite Hm. reflexivity.
Qed.

(** The text [Marshal] writes, as the parser meets it. *)
Lemma Marshal_text (d : StudentDoc) :
  json.Marshal d
  = String "{" (String dq
      ("docStatus" +:+ DQ +:+
       String ":" (String dq
         (json.string_loop (String.length (DocStatus d)) (DocStatus d) +:+ DQ +:+
          String "," (String dq
            ("owner" +:+ DQ +:+
             String ":" (String dq
               (json.string_loop (String.length (Owner d)) (Owner d) +:+ DQ +:+
                String "}" "")))))))).
Proof.
  unfold json.Marshal, json.quote.
  generalize (json.string_loop (String.length (DocStatus d)) (DocStatus d)).
  generalize (json.string_loop (String.length (Owner d)) (Owner d)).
  intros b a. rewrite !app_assoc. reflexivity.
Qed.

(** A key that [encodeState.string] leaves as it is. *)
Lemma unquote_key (key rest : string) :
  utf8.ValidString key = true ->
  json.string_loop (String.length key) key = key ->
  json.unquote (key +:+ DQ +:+ rest) = Some (key, rest).
Proof.
  intros Hv Hs. rewrite <- Hs at 1. apply unquote_quote. exact Hv.
Qed.

Lemma parse_value_Marshal (n : nat) (d : StudentDoc) :
  utf8.ValidString (DocStatus d) = true ->
  utf8.ValidString (Owner d) = true ->
  json.parse_value (4 + n) (json.Marshal d)
  = Some (json.Object [("docStatus", json.Str (DocStatus d));
                       ("owner", json.Str (Owner d))], "").
Proof.
  intros Hs Ho. rewrite Marshal_text.
  apply parse_value_object.
  eapply parse_members_more.
  - apply unquote_key; vm_compute; reflexivity.
  - apply parse_value_string. apply unquote_quote. exact Hs.
  - eapply parse_members_last.
    + apply unquote_key; vm_compute; reflexivity.
    + apply parse_value_string. apply unquote_quote. exact Ho.
Qed.

Lemma Marshal_length (d : StudentDoc) :
  exists n, String.length (json.Marshal d) = 3 + n.
Proof.
  rewrite Marshal_text. simpl String.length. eauto.
Qed.

Lemma parse_Marshal (d : StudentDoc) :
  utf8.ValidString (DocStatus d) = true ->
  utf8.ValidString (Owner d) = true ->
  json.parse (json.Marshal d)
  = Some (json.Object [("docStatus", json.Str (DocStatus d));
                       ("owner", json.Str (Owner d))]).
Proof.
  intros Hs Ho. unfold json.parse.
  destruct (Marshal_length d) as [n ->].
  change (S (3 + n)) with (4 + n).
  rewrite parse_value_Marshal by assumption. reflexivity.
Qed.

(** [Unmarshal] of what [Marshal] wrote gives the record back, whatever the
    record decoded into held, when both fields are valid UTF-8. *)
Lemma Unmarshal_Marshal (d v : StudentDoc) :
  utf8.ValidString (DocStatus d) = true ->
  utf8.ValidString (Owner d) = true ->
  json.Unmarshal (json.Marshal d) v = (d, None).
Proof.
  intros Hs Ho. unfold json.Unmarshal.
  rewrite parse_Marshal by assumption.
  destruct d as [s o]. reflexivity.
Qed.

(** ** Create, then query *)

Lemma createStudentDoc_run (key status owner : string) (m : gmap string string) :
  createStudentDoc [key; status; owner] m
  = (Success None, <[key := json.Marshal (mkStudentDoc status owner)]> m).
Proof. reflexivity. Qed.

Lemma queryStudentDoc_run (key : string) (m : gmap string string) :
  queryStudentDoc [key] m = (Success (m !! key), m).
Proof. reflexivity. Qed.

(** [queryStudentDoc] on [key] succeeds with bytes that decode to [d]. *)
Definition query_returns (key : string) (d : StudentDoc)
    (m : gmap string string) : Prop :=
  exists payload,
    queryStudentDoc [key] m = (Success (Some payload), m)
    /\ decodes_to payload d.

(** A status of one byte, [0xFF], which is not UTF-8. *)
Definition badStatus : string := String "255"%char "".





(** The example of the specification. *)
Example create_doc1_then_query :
  fst (queryStudentDoc ["doc1"]
         (snd (createStudentDoc ["doc1"; "scanned"; "Alice"] ∅)))
  = Success (Some ("{" +:+ DQ +:+ "docStatus" +:+ DQ +:+ ":" +:+ DQ
                   +:+ "scanned" +:+ DQ +:+ "," +:+ DQ +:+ "owner" +:+ DQ
                   +:+ ":" +:+ DQ +:+ "Alice" +:+ DQ +:+ "}")).
Proof.
  rewrite createStudentDoc_run, queryStudentDoc_run. simpl.
  rewrite lookup_insert_eq. vm_compute. reflexivity.
Qed.

(** * Further properties of the handlers *)

(** ** Arity *)

Lemma wrong_arity_refused_witness :
  createStudentDoc ["doc1"; "scanned"] oneDoc
  = (Error "Incorrect number of arguments. Expecting 3", oneDoc).
Proof.
  assert (H : length ["doc1"; "scanned"] <> 3) by (simpl; lia).
  exact (proj1 (proj2 (wrong_arity_refused ["doc1"; "scanned"] oneDoc)) H).
Defined.

Lemma getHistoryForStudentDoc_arity_witness :
  getHistoryForStudentDoc historyHost ["doc1"; "x"; "y"] oneDoc
  = getHistoryForStudentDoc historyHost ["doc1"] oneDoc.
Proof.
  exact (proj2 (getHistoryForStudentDoc_arity historyHost ["doc1"; "x"; "y"] oneDoc)
           "doc1" ["x"; "y"] eq_refl).
Defined.

(** [changeStudentDocStatus] never uses what it reads: on every argument
    list and every world state it does what [createStudentDoc] does with
    the last two arguments exchanged, also when it refuses the arguments. *)
Theorem changeStudentDocStatus_is_create (args : list string)
    (m : gmap string string) :
  changeStudentDocStatus args m
  = createStudentDoc
      (if (length args =? 3)%nat
       then [nth 0 args ""; nth 2 args ""; nth 1 args ""]
       else args) m.
Proof.
  unfold changeStudentDocStatus, createStudentDoc.
  destruct (length args =? 3)%nat eqn:E; simpl; [|rewrite E]; reflexivity.
Qed.

(** ** Overwriting *)

(** [createStudentDoc] overwrites without notice: of two calls on one key
    the second alone decides the world state and the response, and a call
    changes no other key. *)
Theorem createStudentDoc_overwrites (key s1 o1 s2 o2 : string)
    (m : gmap string string) :
  createStudentDoc [key; s2; o2] (snd (createStudentDoc [key; s1; o1] m))
  = createStudentDoc [key; s2; o2] m
  /\ (forall k, k <> key ->
      snd (createStudentDoc [key; s1; o1] m) !! k = m !! k).
Proof.
  rewrite !createStudentDoc_run. simpl. split.
  - rewrite insert_insert_eq. reflexivity.
  - intros k Hne. apply lookup_insert_ne. congruence.
Qed.

(** ** Errors of a scan *)

(** The first error a sequence of [Next] results holds, and the records
    before the end of the sequence. *)
Fixpoint first_fault {A : Type} (steps : list (Step A)) : option string :=
  match steps with
  | [] => None
  | Fault err :: _ => Some err
  | Item _ :: steps' => first_fault steps'
  end.

Fixpoint items_of {A : Type} (steps : list (Step A)) : list A :=
  match steps with
  | [] => []
  | Fault _ :: _ => []
  | Item a :: steps' => a :: items_of steps'
  end.

Lemma queryAll_loop_steps (steps : list (Step KV)) (buffer : string)
    (written : bool) :
  queryAll_loop steps buffer written
  = match first_fault steps with
    | Some err => inl err
    | None => inr (buffer +:+ members written (map record_entry (items_of steps)))
    end.
Proof.
  revert buffer written.
  induction steps as [|[kv|err] steps IH]; intros buffer written.
  - simpl. rewrite app_nil_r. reflexivity.
  - simpl queryAll_loop. rewrite IH. simpl first_fault.
    destruct (first_fault steps); [reflexivity|]. f_equal.
    unfold WriteString, record_entry. simpl items_of. simpl map. simpl members.
    destruct written; rewrite ?app_assoc, ?app_nil_l; reflexivity.
  - reflexivity.
Qed.

Lemma getHistory_loop_steps (host : Host) (steps : list (Step KeyModification))
    (buffer : string) (written : bool) :
  getHistory_loop host steps buffer written
  = match first_fault steps with
    | Some err => inl err
    | None =>
      inr (buffer +:+ members written (map (history_entry host) (items_of steps)))
    end.
Proof.
  revert buffer written.
  induction steps as [|[e|err] steps IH]; intros buffer written.
  - simpl. rewrite app_nil_r. reflexivity.
  - simpl getHistory_loop. rewrite IH. simpl first_fault.
    destruct (first_fault steps); [reflexivity|]. f_equal.
    unfold WriteString, history_entry, value_member.
    simpl items_of. simpl map. simpl members.
    destruct written, (IsDelete e); rewrite ?app_assoc, ?app_nil_l; reflexivity.
  - reflexivity.
Qed.

(** [queryAllStudentDocs] on every peer and every world state: the error
    of a scan that does not open or of the first [Next] that fails, with
    nothing of the array built so far; otherwise the array of all records
    the iterator gave, in its order.  The world state stays as it is. *)
Theorem queryAllStudentDocs_response (host : Host) (m : gmap string string) :
  queryAllStudentDocs host m
  = (match rangeScan host m "StudentDoc0" "StudentDoc999" with
     | OpenError err => Error err
     | Open steps =>
       match first_fault steps with
       | Some err => Error err
       | None => Success (Some (json_array (map record_entry (items_of steps))))
       end
     end, m).
Proof.
  unfold queryAllStudentDocs.
  destruct (rangeScan host m "StudentDoc0" "StudentDoc999") as [err|steps];
    [reflexivity|].
  rewrite queryAll_loop_steps.
  destruct (first_fault steps); [reflexivity|].
  unfold WriteString, json_array.
  rewrite members_join, app_nil_l, app_assoc. reflexivity.
Qed.

(** [getHistoryForStudentDoc] returns the error of a history scan that does
    not open, and the error of the first [Next] that fails, whatever was
    read before it; the response does not depend on the world state, which
    stays as it is. *)
Theorem getHistoryForStudentDoc_scan_error (host : Host) (args : list string)
    (err : string) (m : gmap string string) :
  args <> [] ->
  (historyScan host (nth 0 args "") = OpenError err
   \/ exists steps, historyScan host (nth 0 args "") = Open steps
                    /\ first_fault steps = Some err) ->
  getHistoryForStudentDoc host args m = (Error err, m).
Proof.
  intros Hargs H. unfold getHistoryForStudentDoc.
  destruct args as [|docId rest]; [contradiction|]. simpl in *.
  destruct H as [-> | (steps & -> & Hf)]; [reflexivity|].
  rewrite getHistory_loop_steps, Hf. reflexivity.
Qed.

(** A peer whose history breaks off after the first entry. *)
Definition brokenHost : Host :=
  mkHost (fun _ _ _ => OpenError "ledger is closed")
         (fun _ => Open [Item (mkKeyModification "tx1" "{}" (1, 0)%Z false);
                         Fault "history: read failed";
                         Item (mkKeyModification "tx2" "" (2, 0)%Z true)])
         (fun _ _ => "t").

Lemma getHistoryForStudentDoc_scan_error_witness :
  getHistoryForStudentDoc brokenHost ["doc1"] oneDoc
  = (Error "history: read failed", oneDoc).
Proof.
  apply (getHistoryForStudentDoc_scan_error brokenHost ["doc1"]).
  - discriminate.
  - right. eexists. split; reflexivity.
Defined.

(** ** What the handlers store can be decoded *)

Lemma DecodeRune_size_one (c : ascii) (t : string) (r : N) :
  (byte c <? utf8.RuneSelf)%N = false ->
  utf8.DecodeRune (String c t) = (r, 1) -> r = utf8.RuneError.
Proof.
  intros Hc. unfold utf8.DecodeRune.
  destruct (utf8.first (byte c)) as [[[sz lo] hi]|].
  2:{ rewrite Hc. intros [= <-]. reflexivity. }
  destruct t as [|c1 t1]; [intros [= <-]; reflexivity|].
  destruct (negb _); [intros [= <-]; reflexivity|].
  destruct (sz <=? 2)%nat; [intros [= _ ?]; discriminate|].
  destruct t1 as [|c2 t2]; [intros [= <-]; reflexivity|].
  destruct (negb _); [intros [= <-]; reflexivity|].
  destruct (sz <=? 3)%nat; [intros [= _ ?]; discriminate|].
  destruct t2 as [|c3 t3]; [intros [= <-]; reflexivity|].
  destruct (negb _); [intros [= <-]; reflexivity|intros [= _ ?]; discriminate].
Qed.

Lemma unquote_replacement (k : nat) (x : string) :
  json.unquote_loop (S k) ("\ufffd" +:+ x)
  = json.emit (utf8.EncodeRune utf8.RuneError) (json.unquote_loop k x).
Proof. reflexivity. Qed.

Lemma escape_length (c : ascii) :
  1 <= String.length
         (if json.htmlSafeSet (byte c) then String c "" else json.escape c).
Proof.
  destruct (json.htmlSafeSet (byte c)); [simpl; lia|].
  unfold json.escape.
  repeat match goal with
         | |- context [if ?b then _ else _] => destruct b
         end; simpl; lia.
Qed.

(** Whatever the bytes of [s], what [encodeState.string] writes for it is a
    string literal the scanner accepts. *)
Lemma unquote_string_loop_any (L : nat) :
  forall (s : string) (k : nat) (rest : string),
    String.length s <= L ->
    String.length (json.string_loop L s) < k ->
    exists s',
      json.unquote_loop k (json.string_loop L s +:+ DQ +:+ rest) = Some (s', rest).
Proof.
  induction L as [|L IH]; intros s k rest Hlen Hk.
  - destruct s; [|simpl in Hlen; lia]. simpl in *.
    destruct k as [|k]; [lia|]. eexists. reflexivity.
  - destruct s as [|c t].
    { simpl in *. destruct k as [|k]; [lia|]. eexists. reflexivity. }
    cbn [json.string_loop] in *.
    destruct (byte c <? utf8.RuneSelf)%N eqn:Hc.
    + rewrite length_app in Hk. rewrite app_assoc.
      destruct k as [|k]; [lia|].
      rewrite unquote_ascii by exact Hc.
      pose proof (escape_length c) as He.
      destruct (IH t k rest) as [s' ->]; [simpl in Hlen; lia|lia|].
      eexists. reflexivity.
    + pose proof (DecodeRune_size_pos c t) as Hpos.
      destruct (utf8.DecodeRune (String c t)) as [r size] eqn:Hd.
      simpl in Hpos.
      assert (Hlen' : String.length (skip size (String c t)) <= L).
      { rewrite length_skip. simpl in *. lia. }
      destruct (Nat.eqb_spec size 1) as [->|Hne1].
      * rewrite (DecodeRune_size_one c t r Hc Hd) in *.
        change ((utf8.RuneError =? utf8.RuneError)%N && true) with true in *.
        cbv iota in *.
        rewrite app_assoc. rewrite length_app in Hk.
        destruct k as [|k]; [lia|].
        rewrite unquote_replacement.
        destruct (IH (skip 1 (String c t)) k rest) as [s' ->];
          [exact Hlen'|simpl in Hk |- *; lia|].
        eexists. reflexivity.
      * destruct (DecodeRune_wellformed _ _ _ Hd Hpos Hne1)
          as (Hsz & Henc & Hr & Hdec).
        rewrite andb_false_r in *.
        destruct ((r =? 8232)%N || (r =? 8233)%N) eqn:Hsep.
        -- rewrite !app_assoc. rewrite !length_app in Hk.
           destruct k as [|k]; [lia|].
           rewrite unquote_separator.
           2:{ apply orb_true_iff in Hsep as [E|E]; apply N.eqb_eq in E; auto. }
           destruct (IH (skip size (String c t)) k rest) as [s' ->];
             [exact Hlen'|simpl in Hk; lia|].
           eexists. reflexivity.
        -- rewrite app_assoc. rewrite length_app in Hk.
           destruct k as [|k]; [lia|].
           assert (Hp : exists t', prefix size (String c t) = String c t').
           { destruct size; [lia|]. simpl. eauto. }
           destruct Hp as [t' Hp]. rewrite Hp, app_cons.
           rewrite unquote_multibyte by exact Hc.
           rewrite <- app_cons, <- Hp, Hdec.
           rewrite skip_prefix_app by exact Hsz.
           assert (1 <= String.length (prefix size (String c t)))
             by (rewrite Hp; simpl; lia).
           destruct (IH (skip size (String c t)) k rest) as [s' ->];
             [exact Hlen'|lia|].
           eexists. reflexivity.
Qed.

Lemma unquote_quote_any (s rest : string) :
  exists s',
    json.unquote (json.string_loop (String.length s) s +:+ DQ +:+ rest)
    = Some (s', rest)
    /\ (utf8.ValidString s = true -> s' = s).
Proof.
  destruct (unquote_string_loop_any (String.length s) s
              (String.length
                 (json.string_loop (String.length s) s +:+ DQ +:+ rest)) rest)
    as [s' Hs']; [lia|rewrite !length_app; simpl; lia|].
  exists s'. split; [exact Hs'|].
  intros Hv. pose proof (unquote_quote s rest Hv) as Hq.
  unfold json.unquote in Hq. rewrite Hs' in Hq. congruence.
Qed.

(** [Marshal] of every record is an object of the two members, and each
    field that is valid UTF-8 is read back as it was. *)
Lemma Unmarshal_Marshal_any (d v : StudentDoc) :
  exists s' o',
    json.Unmarshal (json.Marshal d) v = (mkStudentDoc s' o', None)
    /\ (utf8.ValidString (DocStatus d) = true -> s' = DocStatus d)
    /\ (utf8.ValidString (Owner d) = true -> o' = Owner d).
Proof.
  destruct (unquote_quote_any (Owner d) (String "}" "")) as (o' & Ho & Hov).
  destruct (unquote_quote_any (DocStatus d)
              (String "," (String dq
                 ("owner" +:+ DQ +:+
                  String ":" (String dq
                    (json.string_loop (String.length (Owner d)) (Owner d)
                     +:+ DQ +:+ String "}" ""))))))
    as (s' & Hs & Hsv).
  exists s', o'. split; [|split; assumption].
  unfold json.Unmarshal, json.parse.
  destruct (Marshal_length d) as [n ->].
  rewrite Marshal_text.
  erewrite parse_value_object.
  2:{ eapply parse_members_more.
      - apply unquote_key; vm_compute; reflexivity.
      - apply parse_value_string. exact Hs.
      - eapply parse_members_last.
        + apply unquote_key; vm_compute; reflexivity.
        + apply parse_value_string. exact Ho. }
  reflexivity.
Qed.


(** ** Create, then change the owner *)

(** After [createStudentDoc] with a status that is valid UTF-8,
    [changeStudentDocOwner] leaves exactly what [createStudentDoc] with
    the new owner would have left; the first owner may be any bytes. *)
Theorem create_then_changeOwner (key status owner newOwner : string)
    (m : gmap string string) :
  utf8.ValidString status = true ->
  changeStudentDocOwner [key; newOwner]
    (snd (createStudentDoc [key; status; owner] m))
  = createStudentDoc [key; status; newOwner] m.
Proof.
  intros Hs. rewrite !createStudentDoc_run, changeStudentDocOwner_run.
  simpl snd. rewrite lookup_insert_eq. simpl bytes.
  destruct (Unmarshal_Marshal_any (mkStudentDoc status owner) zeroStudentDoc)
    as (s' & o' & -> & Hs' & _).
  simpl in *. rewrite (Hs' Hs), insert_insert_eq. reflexivity.
Qed.

Lemma create_then_changeOwner_witness :
  changeStudentDocOwner ["doc1"; "Bob"]
    (snd (createStudentDoc ["doc1"; "scanned"; badStatus] ∅))
  = createStudentDoc ["doc1"; "scanned"; "Bob"] ∅.
Proof.
  apply (create_then_changeOwner "doc1" "scanned" badStatus "Bob" ∅).
  reflexivity.
Defined.

(** ** The seed *)

(** A sequence of writes decides the keys it writes, whatever they held. *)
Lemma put_all_absorb (kvs : list KV) (m m' : gmap string string) :
  NoDup (map Key kvs) ->
  (forall k, k ∉ map Key kvs -> m !! k = m' !! k) ->
  put_all kvs m = put_all kvs m'.
Proof.
  intros Hnd Hout. apply map_eq. intros k.
  destruct (decide (k ∈ map Key kvs)) as [Hin|Hn].
  - apply list_elem_of_fmap in Hin as [kv [-> Hkv]].
    rewrite !(put_all_member kvs _ kv Hnd Hkv). reflexivity.
  - rewrite !put_all_other by exact Hn. apply Hout, Hn.
Qed.

(** [initLedger] writes the nine keys [StudentDoc0] to [StudentDoc8] and no
    other: whatever one of them held before is lost, every other key keeps
    its value, and a second [initLedger] changes nothing. *)
Theorem initLedger_resets_seeds (m : gmap string string) (k v : string) :
  (k ∈ map Key seedKVs ->
   snd (initLedger (<[k := v]> m)) = snd (initLedger m))
  /\ (k ∉ map Key seedKVs -> snd (initLedger m) !! k = m !! k)
  /\ initLedger (snd (initLedger m)) = initLedger m.
Proof.
  rewrite !initLedger_run. simpl snd. split; [|split].
  - intros Hk. apply put_all_absorb; [exact seed_keys_NoDup|].
    intros k' Hk'. apply lookup_insert_ne. intros ->. contradiction.
  - intros Hk. apply put_all_other, Hk.
  - f_equal. apply put_all_absorb; [exact seed_keys_NoDup|].
    intros k' Hk'. apply put_all_other, Hk'.
Qed.

Lemma initLedger_resets_seeds_witness :
  snd (initLedger (<["StudentDoc3" := "lost"]> oneDoc)) = snd (initLedger oneDoc).
Proof.
  assert (H : "StudentDoc3" ∈ map Key seedKVs).
  { apply list_elem_of_In. vm_compute. tauto. }
  exact (proj1 (initLedger_resets_seeds oneDoc "StudentDoc3" "lost") H).
Defined.

Lemma seed_lookup (m : gmap string string) (k v : string) :
  mkKV k v ∈ seedKVs -> snd (initLedger m) !! k = Some v.
Proof.
  intros Hin. rewrite initLedger_run. simpl snd.
  exact (put_all_member seedKVs m (mkKV k v) seed_keys_NoDup Hin).
Qed.

(** After [initLedger], on every world state, [queryStudentDoc] on the key
    [StudentDoc] followed by the decimal index [i] returns bytes that
    decode to the [i]-th record of the table in [initLedger]. *)
Theorem initLedger_then_query (i : nat) (d : StudentDoc)
    (m : gmap string string) :
  studentDocs !! i = Some d ->
  query_returns ("StudentDoc" +:+ Itoa i) d (snd (initLedger m)).
Proof.
  intros Hi. exists (json.Marshal d). split.
  - rewrite queryStudentDoc_run. f_equal. f_equal. apply seed_lookup.
    do 9 (destruct i as [|i];
          [injection Hi as <-; apply list_elem_of_In; vm_compute; tauto|]).
    discriminate Hi.
  - do 9 (destruct i as [|i];
          [injection Hi as <-; apply Unmarshal_Marshal; reflexivity|]).
    discriminate Hi.
Qed.

Lemma initLedger_then_query_witness :
  query_returns "StudentDoc3" (mkStudentDoc "machine scored" "Mark")
    (snd (initLedger oneDoc)).
Proof.
  apply (initLedger_then_query 3 (mkStudentDoc "machine scored" "Mark") oneDoc).
  reflexivity.
Defined.

(** ** Keys outside the range *)

Lemma scan_elem (m : gmap string string) (startKey endKey k : string) :
  k ∈ merge_sort String.le
        (List.filter (in_range startKey endKey) (map fst (map_to_list m)))
  <-> in_range startKey endKey k = true /\ is_Some (m !! k).
Proof.
  rewrite merge_sort_Permutation, list_elem_of_In, List.filter_In,
    <- list_elem_of_In.
  change (map fst (map_to_list m)) with ((map_to_list m).*1).
  rewrite list_elem_of_fmap. split.
  - intros [[[k' v] [-> Hin]] Hr]. split; [exact Hr|].
    apply elem_of_map_to_list in Hin. simpl. rewrite Hin. eauto.
  - intros [Hr [v Hv]]. split; [|exact Hr].
    exists (k, v). split; [reflexivity|]. apply elem_of_map_to_list. exact Hv.
Qed.

Lemma scan_NoDup (m : gmap string string) (startKey endKey : string) :
  NoDup (merge_sort String.le
           (List.filter (in_range startKey endKey) (map fst (map_to_list m)))).
Proof.
  rewrite merge_sort_Permutation.
  apply NoDup_ListNoDup, List.NoDup_filter, NoDup_ListNoDup.
  apply (NoDup_fst_map_to_list m).
Qed.

Lemma omap_agree {A B : Type} (f g : A -> option B) (l : list A) :
  (forall x, x ∈ l -> f x = g x) -> omap f l = omap g l.
Proof.
  intros H. apply list_omap_ext.
  induction l as [|x l IH]; constructor.
  - apply H. left.
  - apply IH. intros y Hy. apply H. right. exact Hy.
Qed.

(** A write under a key outside the range does not show in a scan. *)
Lemma scan_insert_outside (m : gmap string string)
    (startKey endKey k v : string) :
  in_range startKey endKey k = false ->
  scan (<[k := v]> m) startKey endKey = scan m startKey endKey.
Proof.
  intros Hout. unfold scan.
  assert (Hne : forall k', in_range startKey endKey k' = true -> k <> k').
  { intros k' Hr ->. congruence. }
  rewrite (scan_keys (<[k := v]> m) startKey endKey
             (merge_sort String.le
                (List.filter (in_range startKey endKey)
                             (map fst (map_to_list m))))).
  - apply omap_agree. intros k' Hk'. apply scan_elem in Hk' as [Hr _].
    rewrite lookup_insert_ne by (apply Hne, Hr). reflexivity.
  - apply Sorted_merge_sort, _.
  - apply scan_NoDup.
  - intros k'. rewrite scan_elem. split; intros [Hr Hs]; (split; [exact Hr|]).
    + rewrite lookup_insert_ne by (apply Hne, Hr). exact Hs.
    + rewrite lookup_insert_ne in Hs by (apply Hne, Hr). exact Hs.
Qed.

(** With a peer whose range scan does not fail, a record that
    [createStudentDoc] stores under a key outside [StudentDoc0] to
    [StudentDoc999] is not listed by [queryAllStudentDocs]: the response is
    the one the world state before the call gives. *)
Theorem queryAll_skips_outside_keys (host : Host) (key status owner : string)
    (m : gmap string string) :
  (forall m', rangeScan host m' "StudentDoc0" "StudentDoc999"
              = faithfulRange m' "StudentDoc0" "StudentDoc999") ->
  in_range "StudentDoc0" "StudentDoc999" key = false ->
  fst (queryAllStudentDocs host (snd (createStudentDoc [key; status; owner] m)))
  = fst (queryAllStudentDocs host m).
Proof.
  intros Hhost Hout.
  rewrite !(queryAllStudentDocs_faithful host _ (Hhost _)).
  rewrite createStudentDoc_run. simpl.
  rewrite scan_insert_outside by exact Hout. reflexivity.
Qed.

Lemma queryAll_skips_outside_keys_witness :
  fst (queryAllStudentDocs quietHost
         (snd (createStudentDoc ["doc1"; "scanned"; "Alice"] ∅)))
  = fst (queryAllStudentDocs quietHost ∅).
Proof.
  apply (queryAll_skips_outside_keys quietHost "doc1" "scanned" "Alice" ∅).
  - reflexivity.
  - reflexivity.
Defined.

(** ** The loop of [initLedger] *)

(** The keys and values the loop writes from index [i] on, for a table
    [docs] of any length. *)
Definition seed_entries (i : nat) (docs : list StudentDoc) : list KV :=
  zip_with (fun j d => mkKV ("StudentDoc" +:+ Itoa j) (json.Marshal d))
           (seq i (length docs)) docs.

(** The loop of [initLedger] over a table of any length, from any index:
    one [PutState] per record, in the order of the table, under the key
    [StudentDoc] followed by the decimal index; for the table of the
    source these are the nine records of [seedKVs]. *)
Theorem initLedger_loop_writes (i : nat) (docs : list StudentDoc)
    (m : gmap string string) :
  initLedger_loop i docs m = (tt, put_all (seed_entries i docs) m)
  /\ seed_entries 0 studentDocs = seedKVs.
Proof.
  split; [|reflexivity].
  revert i m. induction docs as [|d docs IH]; intros i m; [reflexivity|].
  simpl initLedger_loop. unfold bind, PutState. rewrite IH.
  rewrite Nat.add_1_r. reflexivity.
Qed.

(** ** Handlers without arguments *)

(** [initLedger] and [queryAllStudentDocs] are not given the arguments: an
    invocation of either with any argument list does what the one with
    none does. *)
Theorem Invoke_drops_arguments (host : Host) (args : list string)
    (m : gmap string string) :
  Invoke host "initLedger" args m = Invoke host "initLedger" [] m
  /\ Invoke host "queryAllStudentDocs" args m
     = Invoke host "queryAllStudentDocs" [] m
  /\ fst (Invoke host "initLedger" args m) = Success None.
Proof. repeat split. Qed.

(** ** Two changes of owner *)

(** Where the bytes under the key decode to a record whose status is valid
    UTF-8, two calls of [changeStudentDocOwner] leave what the second one
    alone leaves: the status is kept through both and the last owner
    stands. *)
Theorem changeStudentDocOwner_twice (key o1 o2 stored : string)
    (d : StudentDoc) (m : gmap string string) :
  m !! key = Some stored ->
  decodes_to stored d ->
  utf8.ValidString (DocStatus d) = true ->
  changeStudentDocOwner [key; o2] (snd (changeStudentDocOwner [key; o1] m))
  = changeStudentDocOwner [key; o2] m.
Proof.
  intros Hk Hd Hv. rewrite !changeStudentDocOwner_run. simpl snd.
  rewrite lookup_insert_eq, Hk. simpl bytes.
  unfold decodes_to in Hd. rewrite Hd. simpl DocStatus.
  destruct (Unmarshal_Marshal_any (mkStudentDoc (DocStatus d) o1) zeroStudentDoc)
    as (s' & o' & -> & Hs' & _).
  simpl in *. rewrite (Hs' Hv), insert_insert_eq. reflexivity.
Qed.

Lemma changeStudentDocOwner_twice_witness :
  changeStudentDocOwner ["doc1"; "Carol"]
    (snd (changeStudentDocOwner ["doc1"; "Bob"] oneDoc))
  = changeStudentDocOwner ["doc1"; "Carol"] oneDoc.
Proof.
  apply (changeStudentDocOwner_twice "doc1" "Bob" "Carol"
           (json.Marshal (mkStudentDoc "scanned" "Alice"))
           (mkStudentDoc "scanned" "Alice") oneDoc).
  - reflexivity.
  - vm_compute. reflexivity.
  - reflexivity.
Defined.
